(** * GA4GH server: schema compiler, configuration and exception layer

    A shallow embedding of [scripts/process_schemas.py] and
    [ga4gh/serverconfig.py], with the parts of the exception and protocol
    layer that the unit tests exercise, and the properties the design
    document states about them. *)

From Stdlib Require Import Ascii.
From stdpp Require Import base option list strings gmap sorting pretty.
From Stdlib Require Import ZArith Lia.

Local Open Scope Z_scope.
Local Set Warnings "-register-all".

(** ** Python exceptions

    The exceptions the script can raise.  [Exception msg] is the plain
    [raise Exception(msg)] of the script; the others are raised by the
    interpreter or by the Avro library. *)

Inductive PyExn : Type :=
| Exception (msg : string)
| IndexError
| AttributeError
| KeyError
| SchemaParseException (msg : string).

Inductive result (A : Type) : Type :=
| Ok (a : A)
| Raise (e : PyExn).
Arguments Ok {A} a.
Arguments Raise {A} e.

Definition rbind {A B} (m : result A) (k : A → result B) : result B :=
  match m with
  | Ok a => k a
  | Raise e => Raise e
  end.

Definition raises {A} (m : result A) : Prop := ∃ e, m = Raise e.

(** ** The Avro schema objects ([avro.schema])

    The classes of the Avro library that the script inspects with
    [isinstance], with the attributes it reads. *)

Module avro.

Inductive PrimitiveType : Type :=
| null | boolean | string_ | bytes | int | long | float | double.

Inductive Schema : Type :=
| PrimitiveSchema (type : PrimitiveType)
| FixedSchema (name : string) (size : Z)
| EnumSchema (name : string) (doc : option string) (symbols : list string)
| ArraySchema (items : Schema)
| MapSchema (values : Schema)
| UnionSchema (schemas : list Schema)
| RecordSchema (name : string) (doc : option string) (fields : list Field)
with Field : Type :=
| mkField (name : string) (type : Schema) (has_default : bool).

Definition field_name (f : Field) : string :=
  match f with mkField n _ _ => n end.
Definition field_type (f : Field) : Schema :=
  match f with mkField _ t _ => t end.
Definition has_default (f : Field) : bool :=
  match f with mkField _ _ d => d end.

(** [isinstance(s, avro.schema.PrimitiveSchema) and s.type == "null"] *)
Definition is_null (s : Schema) : bool :=
  match s with
  | PrimitiveSchema null => true
  | _ => false
  end.

(** [schema.name]: only the named schemas have the attribute. *)
Definition schema_name (s : Schema) : result string :=
  match s with
  | FixedSchema n _ | EnumSchema n _ _ | RecordSchema n _ _ => Ok n
  | _ => Raise AttributeError
  end.

End avro.
Import avro.

(** ** [sorted(..., key=...)]

    Python's [sorted] is stable: elements with equal keys keep their
    order.  Keys are compared as strings, character by character. *)

Section sorted.
Context {A : Type} (key : A → string).

Fixpoint insert_by_key (x : A) (l : list A) : list A :=
  match l with
  | [] => [x]
  | y :: l' =>
      if String.leb (key x) (key y) then x :: l
      else y :: insert_by_key x l'
  end.

Definition sorted (l : list A) : list A := foldr insert_by_key [] l.

(** The order [sorted] puts its result in. *)
Definition key_le (x y : A) : Prop := String.le (key x) (key y).
End sorted.

(** ** [SchemaClass] *)

Record SchemaClass : Type := mkSchemaClass {
  sourceFile : string;
  schemaSource : string;
  schema : Schema;
  name : string;
}.

(** [SchemaClass.getFields]; called on record schemas only. *)
Definition getFields (fields : list Field) : list Field :=
  sorted field_name fields.

(** The body of the loop of [getEmbeddedTypes], for one field: what is
    appended to [ret], or the exception raised.  [schemas[0]] and
    [schemas[1]] are both read before the test on the first branch. *)
Definition embeddedTypeOfField (field : Field) : result (list (string * string)) :=
  match field_type field with
  | ArraySchema items =>
      match items with
      | RecordSchema n _ _ => Ok [(field_name field, n)]
      | _ => Ok []
      end
  | RecordSchema n _ _ => Ok [(field_name field, n)]
  | UnionSchema schemas =>
      match schemas !! 0%nat with
      | None => Raise IndexError
      | Some t0 =>
          match schemas !! 1%nat with
          | None => Raise IndexError
          | Some t1 =>
              if is_null t0 then
                match t1 with
                | RecordSchema n _ _ => Ok [(field_name field, n)]
                | _ => Ok []
                end
              else Raise (Exception "Schema union assumptions violated")
          end
      end
  | _ => Ok []
  end.

(** The [for] loop: the first exception ends it. *)
Fixpoint embeddedTypesLoop (fields : list Field) (ret : list (string * string))
  : result (list (string * string)) :=
  match fields with
  | [] => Ok ret
  | field :: rest =>
      rbind (embeddedTypeOfField field) (λ new, embeddedTypesLoop rest (ret ++ new))
  end.

(** [SchemaClass.getEmbeddedTypes] *)
Definition getEmbeddedTypes (s : Schema) : result (list (string * string)) :=
  match s with
  | RecordSchema _ _ fields => embeddedTypesLoop (getFields fields) []
  | _ => Ok []
  end.

(** ** Characters and strings of the generated text *)

Definition nl : string := String "010"%char "".
Definition dquote : string := String "034"%char "".
Definition backslash : string := String "092"%char "".
(** [" " * n] *)
Fixpoint spaces (n : nat) : string :=
  match n with
  | O => ""
  | S n' => String " " (spaces n')
  end.

(** [str.lower]; names are taken to be ASCII, as Avro names are. *)
Definition lower_char (c : ascii) : ascii :=
  let n := nat_of_ascii c in
  if ((65 <=? n) && (n <=? 90))%nat then ascii_of_nat (n + 32) else c.

Fixpoint lower (s : string) : string :=
  match s with
  | "" => ""
  | String c s' => String (lower_char c) (lower s')
  end.

(** [s] without the prefix [p], when it starts with it. *)
Fixpoint strip_prefix (p s : string) : option string :=
  match p, s with
  | "", _ => Some s
  | String a p', String b s' =>
      if Ascii.eqb a b then strip_prefix p' s' else None
  | String _ _, "" => None
  end.

(** ** The two regular expressions of the script ([re.search])

    Both have the form [pre(.+)post] with literal [pre] and [post].
    [.] matches every character but a newline, [+] is greedy, and
    [re.search] takes the leftmost position where a match exists. *)

Module re.

Definition dot (c : ascii) : bool := negb (Ascii.eqb c "010"%char).

(** A text that [.+] can take: no newline in it. *)
Fixpoint all_dot (s : string) : bool :=
  match s with
  | "" => true
  | String c s' => dot c && all_dot s'
  end.

(** [(.+)post] at the start of [s]: the text taken by the group.  The
    longer match is tried first. *)
Fixpoint dot_plus (post s : string) : option string :=
  match s with
  | "" => None
  | String c s' =>
      if dot c then
        match dot_plus post s' with
        | Some g => Some (String c g)
        | None =>
            match strip_prefix post s' with
            | Some _ => Some (String c "")
            | None => None
            end
        end
      else None
  end.

Definition match_at (pre post s : string) : option string :=
  match strip_prefix pre s with
  | Some s' => dot_plus post s'
  | None => None
  end.

(** [re.search(pre + '(.+)' + post, s)]: [None], or the first group of
    the match object. *)
Fixpoint search (pre post s : string) : option string :=
  match match_at pre post s with
  | Some g => Some g
  | None =>
      match s with
      | "" => None
      | String _ s' => search pre post s'
      end
  end.

End re.

(** ** [SchemaGenerator.__init__] *)

Record Externals : Type := mkExternals {
  (** [avro.schema.parse] *)
  avro_schema_parse : string → result Schema;
  (** [json.loads], the loop that empties every [doc], [json.dumps] *)
  json_strip_docs : string → string;
  (** the [fmt] command: exit status and standard output *)
  fmt : string → Z * string;
  (** [textwrap.fill(text, 62, subsequent_indent=17 spaces)] *)
  textwrap_fill : string → string;
  (** ["{0}".format(field.default)] *)
  format_default : Field → string;
}.

(** [SchemaClass.__init__]: [avscFile] is the path and what [sf.read()]
    returns. *)
Definition SchemaClass_init (ext : Externals) (avscFile : string * string)
  : result SchemaClass :=
  rbind (avro_schema_parse ext avscFile.2) (λ sch,
  rbind (schema_name sch) (λ n,
  Ok (mkSchemaClass avscFile.1 avscFile.2 sch n))).

Fixpoint mapM {A B} (f : A → result B) (l : list A) : result (list B) :=
  match l with
  | [] => Ok []
  | x :: l' => rbind (f x) (λ y, rbind (mapM f l') (λ ys, Ok (y :: ys)))
  end.

Definition isRequestName (n : string) : bool :=
  bool_decide (is_Some (re.search "Search" "Request" n)).
Definition isResponseName (n : string) : bool :=
  bool_decide (is_Some (re.search "Search" "Response" n)).

(** One round of the loop over [zip(requestClassNames, responseClassNames)]. *)
Definition postSignature (rr : string * string) : result (string * string * string) :=
  match re.search "Search" "Request" rr.1 with
  | None => Raise AttributeError
  | Some objname =>
      let url := "/" +:+ lower objname +:+ "/search" in
      Ok (url, rr.1, rr.2)
  end.

Record SchemaGenerator : Type := mkSchemaGenerator {
  version : string;
  schemaDir : string;
  outputFile : string;
  classes : list SchemaClass;
  requestClassNames : list string;
  responseClassNames : list string;
  postSignatures : list (string * string * string);
}.

(** The part of [__init__] after the classes are loaded. *)
Definition SchemaGenerator_of_classes (version schemaDir outputFile : string)
    (classes : list SchemaClass) : result SchemaGenerator :=
  let requestClassNames := filter (λ n, isRequestName n = true) (name <$> classes) in
  let responseClassNames := filter (λ n, isResponseName n = true) (name <$> classes) in
  rbind (mapM postSignature (zip requestClassNames responseClassNames)) (λ sigs,
  Ok (mkSchemaGenerator version schemaDir outputFile classes
        requestClassNames responseClassNames sigs)).

(** [SchemaGenerator(version, schemaDir, outputFile)]; [avscFiles] is what
    [glob.glob] finds in [schemaDir], in the order it returns it. *)
Definition SchemaGenerator_init (ext : Externals) (version schemaDir outputFile : string)
    (avscFiles : list (string * string)) : result SchemaGenerator :=
  rbind (mapM (SchemaClass_init ext) avscFiles)
        (SchemaGenerator_of_classes version schemaDir outputFile).

(** ** [SchemaClass.formatRequiredFields] *)

Definition requiredFieldsOf (fields : list Field) : list Field :=
  filter (λ f, has_default f = false) (getFields fields).

Definition formatRequiredFields (fields : list Field) : string :=
  let fields := requiredFieldsOf fields in
  if (length fields <? 2)%nat then
    let string := "set([" in
    let string :=
      foldl (λ string field, string +:+ (dquote +:+ field_name field +:+ dquote))
            string fields in
    string +:+ "])"
  else
    let string := "set([" +:+ nl in
    let string :=
      foldl (λ string field,
               string +:+ (spaces 8 +:+ (dquote +:+ field_name field +:+ dquote +:+ "," +:+ nl)))
            string fields in
    string +:+ (spaces 4 +:+ "])").

(** ** Writing to the output file

    A computation that writes to the open output file: it takes what the
    file holds so far and returns what it holds afterwards, with the value
    or the exception raised.  After an exception nothing more is written. *)

Definition Writer (A : Type) : Type := string → string * result A.

Definition wret {A} (a : A) : Writer A := λ out, (out, Ok a).

Definition wbind {A B} (m : Writer A) (k : A → Writer B) : Writer B :=
  λ out,
    match m out with
    | (out', Ok a) => k a out'
    | (out', Raise e) => (out', Raise e)
    end.

#[global] Instance Writer_ret : MRet Writer := @wret.
#[global] Instance Writer_bind : MBind Writer := λ A B k m, wbind m k.

(** [outputFile.write(s)] *)
Definition fwrite (s : string) : Writer () := λ out, (out +:+ s, Ok ()).
(** [print(s, file=outputFile)] *)
Definition print (s : string) : Writer () := fwrite (s +:+ nl).
(** a computation that writes nothing *)
Definition wlift {A} (r : result A) : Writer A := λ out, (out, r).

(** A computation that only adds to the end of the file. *)
Definition appends {A} (w : Writer A) : Prop :=
  ∀ out, ∃ s, (w out).1 = out +:+ s.


Fixpoint wforeach {A} (f : A → Writer ()) (l : list A) : Writer () :=
  match l with
  | [] => wret ()
  | x :: l' => f x ;; wforeach f l'
  end.

Definition HEADER_COMMENT : string :=
  nl +:+ "DO NOT EDIT THIS FILE!!" +:+ nl +:+
  "This file is automatically generated by the process_schemas.py program" +:+ nl +:+
  "in the scripts directory. It is not intended to be edited directly. If" +:+ nl +:+
  "you need to update the GA4GH protocol classes, please run the script" +:+ nl +:+
  "on the appropriate schema version." +:+ nl.

Definition triple_quote : string := dquote +:+ dquote +:+ dquote.

(** [SchemaClass.formatSchema] *)
Definition formatSchema (ext : Externals) (cls : SchemaClass) : result string :=
  let jsonData := json_strip_docs ext (schemaSource cls) in
  let '(exitStatus, output) := fmt ext jsonData in
  if bool_decide (exitStatus ≠ 0) then
    Raise (Exception ("Error occured running fmt: " +:+ pretty exitStatus +:+ ": None"))
  else Ok output.

(** [SchemaClass.writeConstructor] *)
Definition writeConstructor (ext : Externals) (fields : list Field) : Writer () :=
  print ("    __slots__ = ['" +:+
         textwrap_fill ext (String.concat "', '" (field_name <$> getFields fields)) +:+
         "']");;
  print "";;
  print "    def __init__(self):";;
  wforeach (λ field,
      print ("        self." +:+ field_name field +:+ " = " +:+ format_default ext field))
    (getFields fields).

(** The text of the [embeddedTypes] dictionary. *)
Definition embeddedTypesString (et : list (string * string)) : string :=
  if bool_decide (length et = 0%nat) then spaces 8 +:+ "embeddedTypes = {}"
  else
    let string := spaces 8 +:+ "embeddedTypes = {" +:+ nl in
    let string :=
      foldl (λ string p,
               string +:+ (spaces 12 +:+ ("'" +:+ p.1 +:+ "': " +:+ p.2 +:+ "," +:+ nl)))
            string et in
    string +:+ (spaces 8 +:+ "}").

(** [SchemaClass.writeEmbeddedTypesClassMethods] *)
Definition writeEmbeddedTypesClassMethods (sch : Schema) : Writer () :=
  print "    @classmethod";;
  print "    def isEmbeddedType(cls, fieldName):";;
  et ← wlift (getEmbeddedTypes sch);
  et' ← (if bool_decide (length et = 0%nat) then wret et
         else wlift (getEmbeddedTypes sch));
  let string := embeddedTypesString et' in
  print string;;
  print (spaces 8 +:+ "return fieldName in embeddedTypes");;
  print "";;
  print "    @classmethod";;
  print "    def getEmbeddedType(cls, fieldName):";;
  print string;;
  print (spaces 8 +:+ "return embeddedTypes[fieldName]");;
  print "".

(** [self.schema.doc]: a property of record and enum schemas. *)
Definition schema_doc (s : Schema) : result (option string) :=
  match s with
  | RecordSchema _ d _ | EnumSchema _ d _ => Ok d
  | _ => Raise AttributeError
  end.

(** [SchemaClass.write] *)
Definition SchemaClass_write (ext : Externals) (cls : SchemaClass) : Writer () :=
  let superclass :=
    match schema cls with EnumSchema _ _ _ => "object" | _ => "ProtocolElement" end in
  n ← wlift (schema_name (schema cls));
  print (nl +:+ nl +:+ "class " +:+ n +:+ "(" +:+ superclass +:+ "):");;
  doc ← wlift (schema_doc (schema cls));
  let doc := default "No documentation" doc in
  print ("    " +:+ triple_quote +:+ nl +:+ doc +:+ nl +:+ "    " +:+ triple_quote);;
  match schema cls with
  | RecordSchema _ _ fields =>
      src ← wlift (formatSchema ext cls);
      print ("    _schemaSource = " +:+ triple_quote +:+ nl +:+ src +:+ triple_quote);;
      print "    schema = avro.schema.parse(_schemaSource)";;
      print ("    requiredFields = " +:+ formatRequiredFields fields);;
      print "";;
      writeEmbeddedTypesClassMethods (schema cls);;
      writeConstructor ext fields
  | EnumSchema _ _ symbols =>
      wforeach (λ symbol, print ("    " +:+ symbol +:+ " = " +:+ dquote +:+ symbol +:+ dquote))
        symbols
  | _ => wret ()
  end.

(** [SchemaGenerator.writeHeader]; [version[1:]] drops the leading [v]. *)
Definition writeHeader (sg : SchemaGenerator) : Writer () :=
  print (triple_quote +:+ HEADER_COMMENT +:+ triple_quote);;
  print "from protocol import ProtocolElement";;
  print "import avro.schema";;
  print "";;
  let versionStr := match version sg with "" => "" | String _ v => v end in
  print ("version = '" +:+ versionStr +:+ "'").

(** The loop over [enumerate(self.postSignatures)]. *)
Fixpoint writePostSignatures (total : nat) (i : nat)
    (sigs : list (string * string * string)) : Writer () :=
  match sigs with
  | [] => wret ()
  | (url, request, response) :: rest =>
      (if bool_decide (i ≠ 0%nat) then fwrite "     ('" else wret ());;
      fwrite url;;
      fwrite ("'," +:+ nl +:+ "      ");;
      fwrite request;;
      fwrite ("," +:+ nl +:+ "      ");;
      fwrite response;;
      fwrite ")";;
      (if bool_decide (i = (total - 1)%nat) then fwrite ("]" +:+ nl)
       else fwrite ("," +:+ nl));;
      writePostSignatures total (S i) rest
  end.

(** [dict([(cls.name, cls) for cls in self.classes])]: a later class
    replaces an earlier one of the same name. *)
Definition classesByName (cs : list SchemaClass) : gmap string SchemaClass :=
  foldl (λ m cls, <[name cls := cls]> m) ∅ cs.

(** The body of the [with] block of [SchemaGenerator.write]. *)
Definition writeBody (ext : Externals) (sg : SchemaGenerator) : Writer () :=
  writeHeader sg;;
  let names := name <$> classes sg in
  let byName := classesByName (classes sg) in
  wforeach (λ n,
      match byName !! n with
      | Some cls => SchemaClass_write ext cls
      | None => wlift (Raise KeyError)
      end)
    (sorted id names);;
  fwrite (nl +:+ "postMethods = " +:+ backslash +:+ nl +:+ "    [('");;
  writePostSignatures (length (postSignatures sg)) 0 (postSignatures sg).

(** The files of the machine: path to contents. *)
Abbreviation FileSystem := (gmap string string).

(** [SchemaGenerator.write]: [open(self.outputFile, "w")], taken to
    succeed, creates the file or empties it, and leaving the [with] block,
    normally or by an exception, closes it with what was written. *)
Definition SchemaGenerator_write (ext : Externals) (sg : SchemaGenerator)
    (fs : FileSystem) : FileSystem * result () :=
  let '(out, r) := writeBody ext sg "" in
  (<[outputFile sg := out]> fs, r).

(** The last two statements of [SchemaProcessor.run]:
    [sg = SchemaGenerator(...)] and [sg.write()]. *)
Definition generate (ext : Externals) (version schemaDir outputFile : string)
    (avscFiles : list (string * string)) (fs : FileSystem) : FileSystem * result () :=
  match SchemaGenerator_init ext version schemaDir outputFile avscFiles with
  | Raise e => (fs, Raise e)
  | Ok sg => SchemaGenerator_write ext sg fs
  end.

(** ** Reading the emitted [requiredFields] literal

    The generated module evaluates the text [set([...])] that
    [formatRequiredFields] printed.  The reader below is Python's reading
    of that expression when every element is a double-quoted literal
    without escapes: elements are separated by commas, white space is
    free, and a comma may follow the last element. *)


Definition is_space (c : ascii) : bool :=
  Ascii.eqb c " "%char || Ascii.eqb c "010"%char.




(** ** Embedded types, as the design document words them

    [spec_embedded_type] follows the document: a record, a sequence of
    records, or a two-branch union of null and a record.
    [embedded_type] is the reading under which the script is exact: the
    union needs two branches or more, and only the first two count. *)

Definition spec_embedded_type (t : Schema) : option string :=
  match t with
  | RecordSchema n _ _ => Some n
  | ArraySchema (RecordSchema n _ _) => Some n
  | UnionSchema [PrimitiveSchema null; RecordSchema n _ _] => Some n
  | _ => None
  end.

Definition embedded_type (t : Schema) : option string :=
  match t with
  | RecordSchema n _ _ => Some n
  | ArraySchema (RecordSchema n _ _) => Some n
  | UnionSchema (PrimitiveSchema null :: RecordSchema n _ _ :: _) => Some n
  | _ => None
  end.

(** A union whose first branch is not the null primitive. *)
Definition first_branch_not_null (t : Schema) : bool :=
  match t with
  | UnionSchema (t0 :: _) => negb (is_null t0)
  | _ => false
  end.

(** A union with fewer than two branches. *)
Definition short_union (t : Schema) : bool :=
  match t with
  | UnionSchema [] | UnionSchema [_] => true
  | _ => false
  end.

(** The pairs the document asks for, in the order of the field names. *)
Definition spec_embedded_pairs (fields : list Field) : list (string * string) :=
  omap (λ f, (λ n, (field_name f, n)) <$> spec_embedded_type (field_type f))
       (getFields fields).

Definition embedded_pairs (fields : list Field) : list (string * string) :=
  omap (λ f, (λ n, (field_name f, n)) <$> embedded_type (field_type f))
       (getFields fields).

(** ** [ga4gh/serverconfig.py]

    A class is its name, its base class and the attributes its body
    assigns; reading an attribute looks in the class, then in its bases. *)

Module serverconfig.

Inductive PyConst : Type :=
| PyInt (z : Z)
| PyBool (b : bool).

Inductive PyClass : Type :=
| mkClass (className : string) (base : option PyClass)
          (body : list (string * PyConst)).

Definition class_body (c : PyClass) : list (string * PyConst) :=
  match c with mkClass _ _ body => body end.

(** The class dictionary: a later assignment replaces an earlier one. *)
Definition class_dict (body : list (string * PyConst)) : gmap string PyConst :=
  foldl (λ m kv, <[kv.1 := kv.2]> m) ∅ body.

Fixpoint getattr (c : PyClass) (a : string) : option PyConst :=
  match c with
  | mkClass _ base body =>
      match class_dict body !! a with
      | Some v => Some v
      | None =>
          match base with
          | Some b => getattr b a
          | None => None
          end
      end
  end.

Definition DefaultConfig : PyClass :=
  mkClass "DefaultConfig" None
    [("MAX_CONTENT_LENGTH", PyInt (2 * 1024 * 1024));
     ("REQUEST_VALIDATION", PyBool false);
     ("RESPONSE_VALIDATION", PyBool false)].

Definition TestConfig : PyClass :=
  mkClass "TestConfig" (Some DefaultConfig)
    [("TESTING", PyBool true);
     ("REQUEST_VALIDATION", PyBool true);
     ("RESPONSE_VALIDATION", PyBool true)].

Definition TestWithoutValidationConfig : PyClass :=
  mkClass "TestWithoutValidationConfig" (Some TestConfig)
    [("REQUEST_VALIDATION", PyBool false);
     ("RESPONSE_VALIDATION", PyBool false)].

End serverconfig.

(** ** The exception layer ([ga4gh/exceptions.py], [ga4gh/frontend.py]) *)

Module exceptions.

(** Modelled from the spec: [ga4gh/exceptions.py] is not part of the
    sources at hand.  The kinds are the ones the design document and
    the unit tests name; the exception hierarchy is represented, as the
    document proposes, by a tagged enumeration of its leaves. *)
Inductive Kind : Type :=
| ObjectNotFoundException
| CallSetNotInVariantSetException
| RequestValidationFailureException
| ResponseValidationFailureException
| NotImplementedException
| ServerError.

#[global] Instance Kind_eq_dec : EqDecision Kind.
Proof. solve_decision. Defined.

(** Modelled from the spec: the transport status of each kind. *)
Definition httpStatus (k : Kind) : Z :=
  match k with
  | ObjectNotFoundException => 404
  | CallSetNotInVariantSetException => 404
  | RequestValidationFailureException => 400
  | ResponseValidationFailureException => 500
  | NotImplementedException => 501
  | ServerError => 500
  end.

(** Modelled from the spec: what the document leaves open about the
    module, the numeric code of each kind and the fixed message of
    [ServerError]. *)
Record ExceptionsModule : Type := mkModule {
  getErrorCode : Kind → Z;
  ServerError_message : string;
}.

Definition kinds : list Kind :=
  [ObjectNotFoundException; CallSetNotInVariantSetException;
   RequestValidationFailureException; ResponseValidationFailureException;
   NotImplementedException; ServerError].

Definition kind_name (k : Kind) : string :=
  match k with
  | ObjectNotFoundException => "ObjectNotFoundException"
  | CallSetNotInVariantSetException => "CallSetNotInVariantSetException"
  | RequestValidationFailureException => "RequestValidationFailureException"
  | ResponseValidationFailureException => "ResponseValidationFailureException"
  | NotImplementedException => "NotImplementedException"
  | ServerError => "ServerError"
  end.

(** An exception object reaching the handler: an instance of a kind of
    the taxonomy with its message, or an instance of any other class. *)
Inductive PyException : Type :=
| ServerException (kind : Kind) (message : string)
| OtherException (className : string) (message : string).

Definition in_taxonomy (e : PyException) : bool :=
  match e with
  | ServerException _ _ => true
  | OtherException _ _ => false
  end.

(** The message the exception object itself carries. *)
Definition own_message (e : PyException) : string :=
  match e with
  | ServerException _ m | OtherException _ m => m
  end.

End exceptions.

Module frontend.
Import exceptions.

(** The wire error body, [protocol.GAException]. *)
Record GAException : Type := mkGAException {
  errorCode : Z;
  message : string;
}.

Record Response : Type := mkResponse {
  status_code : Z;
  data : GAException;
}.

(** Modelled from the spec: [ga4gh/frontend.py] is not part of the
    sources at hand.  The central handler wraps an exception from
    outside the taxonomy into a [ServerError] with its fixed message,
    and answers with the status of the kind and a body carrying the
    code and the message. *)
Definition handleException (m : ExceptionsModule) (exception : PyException) : Response :=
  let serverException :=
    match exception with
    | ServerException k msg => (k, msg)
    | OtherException _ _ => (ServerError, ServerError_message m)
    end in
  mkResponse (httpStatus serverException.1)
             (mkGAException (getErrorCode m serverException.1) serverException.2).

End frontend.

(** ** [tests/unit/test_exceptions.py]: [testCodeInvariants]

    The test walks over the exception classes of the module, which
    [inspect.getmembers] lists, and keeps the set of the codes seen.
    [getErrorCode()] of a class is an integer or [None]. *)

Module test_exceptions.

Record ExceptionClass : Type := mkExceptionClass {
  className : string;
  getErrorCode : option Z;
}.

Inductive TestResult : Type :=
| Passed
| AssertionError.

(** The loop, from the class reached: [assertNotIn(code, codes)],
    [codes.add(code)], [assertIsNotNone(code)]. *)
Fixpoint codeInvariantsLoop (classes : list ExceptionClass)
    (codes : gset (option Z)) : TestResult :=
  match classes with
  | [] => Passed
  | class_ :: rest =>
      let code := getErrorCode class_ in
      if bool_decide (code ∈ codes) then AssertionError
      else
        let codes := codes ∪ {[code]} in
        if bool_decide (code = None) then AssertionError
        else codeInvariantsLoop rest codes
  end.

Definition testCodeInvariants (classes : list ExceptionClass) : TestResult :=
  codeInvariantsLoop classes ∅.

(** The classes of a module of the exception layer, as the test meets
    them. *)
Definition classes_of (m : exceptions.ExceptionsModule) : list ExceptionClass :=
  (λ k, mkExceptionClass (exceptions.kind_name k)
                         (Some (exceptions.getErrorCode m k))) <$> exceptions.kinds.

End test_exceptions.

(** ** The runtime object model ([ga4gh/protocol.py]) *)

Module protocol.

(** Modelled from the spec: [ga4gh/protocol.py] and the generated
    [_protocol_definitions.py] are not part of the sources at hand.
    Values are JSON data ([None], booleans, integers, strings, lists and
    mappings with their entries in order) and protocol objects: a
    protocol object has the name of its type and one value per
    attribute. *)
Inductive Value : Type :=
| VNone
| VBool (b : bool)
| VInt (z : Z)
| VStr (s : string)
| VList (l : list Value)
| VDict (entries : list (string * Value))
| VObject (typeName : string) (attrs : list (string * Value)).

(** Modelled from the spec: the Type Descriptor of a record type, its
    fields in order with their defaults and its embedded-type map
    (field name to the name of the type it embeds). *)
Record TypeDescriptor : Type := mkTypeDescriptor {
  fields : list (string * Value);
  embeddedTypes : gmap string string;
}.

(** The descriptors of the protocol version, by type name. *)
Abbreviation Registry := (gmap string TypeDescriptor).

(** Modelled from the spec: assignment to an attribute of the closed
    attribute set; a name outside the set is not an attribute. *)
Fixpoint setattr (attrs : list (string * Value)) (k : string) (v : Value)
  : list (string * Value) :=
  match attrs with
  | [] => []
  | (k', v') :: rest =>
      if decide (k' = k) then (k', v) :: rest
      else (k', v') :: setattr rest k v
  end.

(** Modelled from the spec: [toJsonDict].  A mapping keyed by field
    name; an embedded field is serialized recursively, one nested object
    or a sequence of them, every other value passes through as it is. *)
Fixpoint toJsonDict (reg : Registry) (o : Value) : Value :=
  match o with
  | VObject T attrs =>
      let embedded f := reg !! T ≫= λ td, embeddedTypes td !! f in
      VDict ((λ '(f, v),
                (f, match embedded f with
                    | Some _ =>
                        match v with
                        | VList l => VList (toJsonDict reg <$> l)
                        | _ => toJsonDict reg v
                        end
                    | None => v
                    end)) <$> attrs)
  | _ => o
  end.

(** Modelled from the spec: [fromJsonDict].  The object starts with
    every attribute at its default; each field present in the mapping
    is assigned, a nested object being built where the embedded-type
    map says so.  Input of any other shape is accepted as it is. *)
Fixpoint fromJsonDict (reg : Registry) (T : string) (j : Value) : Value :=
  match j with
  | VDict entries =>
      match reg !! T with
      | Some td =>
          VObject T
            (foldl (λ attrs kv, setattr attrs kv.1 kv.2) (fields td)
               ((λ '(k, v),
                   (k, match embeddedTypes td !! k with
                       | Some E =>
                           match v with
                           | VList l => VList (fromJsonDict reg E <$> l)
                           | _ => fromJsonDict reg E v
                           end
                       | None => v
                       end)) <$> entries))
      | None => j
      end
  | _ => j
  end.

(** JSON data: no protocol object inside. *)
Fixpoint is_json (v : Value) : bool :=
  match v with
  | VList l => forallb is_json l
  | VDict entries => forallb (λ kv, is_json kv.2) entries
  | VObject _ _ => false
  | _ => true
  end.

(** Modelled from the spec: a well-formed Protocol Object of type [T].
    Its attributes are exactly the fields of [T], under distinct names;
    an embedded field holds [None], a well-formed object of the
    embedded type or a sequence of such objects, and any other field
    holds JSON data. *)
Fixpoint wellFormed (reg : Registry) (T : string) (o : Value) : bool :=
  match o with
  | VObject T' attrs =>
      match reg !! T with
      | Some td =>
          bool_decide (T' = T) &&
          bool_decide (attrs.*1 = (fields td).*1) &&
          bool_decide (NoDup attrs.*1) &&
          forallb (λ '(f, v),
                     match embeddedTypes td !! f with
                     | Some E =>
                         match v with
                         | VNone => true
                         | VList l => forallb (wellFormed reg E) l
                         | _ => wellFormed reg E v
                         end
                     | None => is_json v
                     end) attrs
      | None => false
      end
  | _ => false
  end.

End protocol.

(** ** Example data

    Small inputs on which the properties below are instantiated. *)

Module examples.

Definition Position : Schema := RecordSchema "Position" None [].

(** A nullable record, a sequence of records, a scalar without default
    and a map. *)
Definition ReadAlignment_fields : list Field :=
  [mkField "nextMatePosition" (UnionSchema [PrimitiveSchema null; Position]) true;
   mkField "alignedQuality" (ArraySchema (PrimitiveSchema int)) true;
   mkField "positions" (ArraySchema Position) true;
   mkField "id" (UnionSchema [PrimitiveSchema null; PrimitiveSchema string_]) false;
   mkField "info" (MapSchema (ArraySchema (PrimitiveSchema string_))) true;
   mkField "origin" Position false].

(** A union of three branches: null, a record and a string. *)
Definition three_branch_union : Schema :=
  UnionSchema [PrimitiveSchema null; Position; PrimitiveSchema string_].

(** A union whose only branch is null. *)
Definition one_branch_union : Schema := UnionSchema [PrimitiveSchema null].

(** A union with its null branch second. *)
Definition null_second_union : Schema :=
  UnionSchema [Position; PrimitiveSchema null].

(** The externals of the examples.  The text of a schema file is
    represented by a word: [malformed] is a text the Avro library
    rejects, [null-second] the text of a record with one field whose
    union has its null branch second, and any other word the text of
    the record without fields that has this name.  [fmt] and
    [textwrap.fill] leave the text as it is. *)
Definition parse (source : string) : result Schema :=
  if String.eqb source "malformed" then
    Raise (SchemaParseException "No JSON object could be decoded")
  else if String.eqb source "null-second" then
    Ok (RecordSchema "Variant" (Some "A variant.")
          [mkField "position" null_second_union false])
  else Ok (RecordSchema source None []).

Definition externals : Externals :=
  mkExternals parse id (λ s, (0, s)) id (λ _, "None").

(** Requests and responses met in different orders. *)
Definition search_files : list (string * string) :=
  [("SearchVariantsRequest.avsc", "SearchVariantsRequest");
   ("SearchReadsResponse.avsc", "SearchReadsResponse");
   ("SearchReadsRequest.avsc", "SearchReadsRequest");
   ("SearchVariantsResponse.avsc", "SearchVariantsResponse")].

(** An exception module in the shape [testCodeInvariants] sees it. *)
Definition exceptions_module : exceptions.ExceptionsModule :=
  exceptions.mkModule
    (λ k, match k with
          | exceptions.ObjectNotFoundException => 1
          | exceptions.CallSetNotInVariantSetException => 2
          | exceptions.RequestValidationFailureException => 3
          | exceptions.ResponseValidationFailureException => 4
          | exceptions.NotImplementedException => 5
          | exceptions.ServerError => 6
          end)
    "Internal server error".

Definition exception_classes : list test_exceptions.ExceptionClass :=
  test_exceptions.classes_of exceptions_module.

(** Three record types, one nested in the other, and a response object
    as [test_exceptions.py] builds it. *)
Definition registry : protocol.Registry :=
  {[ "SearchReadsResponse" :=
       protocol.mkTypeDescriptor
         [("alignments", protocol.VList []); ("nextPageToken", protocol.VNone)]
         {[ "alignments" := "ReadAlignment" ]};
     "ReadAlignment" :=
       protocol.mkTypeDescriptor
         [("alignment", protocol.VNone); ("id", protocol.VNone)]
         {[ "alignment" := "LinearAlignment" ]};
     "LinearAlignment" :=
       protocol.mkTypeDescriptor
         [("cigar", protocol.VList []); ("mappingQuality", protocol.VNone)]
         ∅ ]}.

Definition response : protocol.Value :=
  protocol.VObject "SearchReadsResponse"
    [("alignments",
      protocol.VList
        [protocol.VObject "ReadAlignment"
           [("alignment",
             protocol.VObject "LinearAlignment"
               [("cigar", protocol.VList [protocol.VStr "10M"]);
                ("mappingQuality", protocol.VInt 30)]);
            ("id", protocol.VStr "read1")]]);
     ("nextPageToken", protocol.VNone)].

End examples.

(** ** More of the script and of the tests *)

(** A computation that returns whatever the file holds. *)
Definition never_raises (w : Writer ()) : Prop :=
  ∀ out, (w out).2 = Ok ().

(** The loop of [SchemaGenerator.write] over the sorted class names. *)
Definition writeClasses (ext : Externals) (sg : SchemaGenerator) : Writer () :=
  wforeach (λ n,
      match classesByName (classes sg) !! n with
      | Some cls => SchemaClass_write ext cls
      | None => wlift (Raise KeyError)
      end)
    (sorted id (name <$> classes sg)).

(** A schema [SchemaClass.write] can write: an enum, or a record whose
    source [fmt] accepts and whose unions have two branches or more with
    null first. *)
Definition writable (ext : Externals) (source : string) (sch : Schema) : bool :=
  match sch with
  | EnumSchema _ _ _ => true
  | RecordSchema _ _ fields =>
      bool_decide ((fmt ext (json_strip_docs ext source)).1 = 0) &&
      forallb (λ f, negb (short_union (field_type f)) &&
                    negb (first_branch_not_null (field_type f))) fields
  | _ => false
  end.

(** The text of one generated class method around the dictionary. *)
Definition embeddedTypesMethod (signature dict ret : string) : string :=
  "    @classmethod" +:+ nl +:+
  signature +:+ nl +:+
  dict +:+ nl +:+
  spaces 8 +:+ ret +:+ nl +:+
  nl.

(** *** Reading the emitted [embeddedTypes] literal

    The generated class methods evaluate the dictionary display that
    [writeEmbeddedTypesClassMethods] printed: keys are single-quoted
    literals without escapes, values are names, entries are separated by
    commas, white space is free and a comma may follow the last entry. *)

Definition is_ident_start (c : ascii) : bool :=
  let n := nat_of_ascii c in
  ((65 <=? n) && (n <=? 90) || (97 <=? n) && (n <=? 122) || (n =? 95))%nat.

Definition is_ident_char (c : ascii) : bool :=
  let n := nat_of_ascii c in
  is_ident_start c || ((48 <=? n) && (n <=? 57))%nat.

Fixpoint all_ident_chars (s : string) : bool :=
  match s with
  | "" => true
  | String c s' => is_ident_char c && all_ident_chars s'
  end.

(** A Python name. *)
Definition is_identifier (s : string) : bool :=
  match s with
  | "" => false
  | String c s' => is_ident_start c && all_ident_chars s'
  end.

(** A key that can stand between single quotes as it is. *)
Fixpoint plain_key (s : string) : bool :=
  match s with
  | "" => true
  | String c s' =>
      negb (Ascii.eqb c "'"%char) && negb (Ascii.eqb c "092"%char) &&
      negb (Ascii.eqb c "010"%char) && plain_key s'
  end.

Inductive DictReaderState : Type :=
| DKey
| DInKey (buf : string)
| DColon (key : string)
| DValue (key : string)
| DInValue (key : string) (buf : string)
| DAfter.

Fixpoint read_entries (st : DictReaderState) (acc : list (string * string)) (s : string)
  : option (list (string * string)) :=
  match s with
  | "" => None
  | String c s' =>
      match st with
      | DKey =>
          if is_space c then read_entries DKey acc s'
          else if Ascii.eqb c "'"%char then read_entries (DInKey "") acc s'
          else if Ascii.eqb c "}"%char then
            (if String.eqb s' "" then Some acc else None)
          else None
      | DInKey buf =>
          if Ascii.eqb c "'"%char then read_entries (DColon buf) acc s'
          else if Ascii.eqb c "092"%char || Ascii.eqb c "010"%char then None
          else read_entries (DInKey (buf +:+ String c "")) acc s'
      | DColon key =>
          if is_space c then read_entries (DColon key) acc s'
          else if Ascii.eqb c ":"%char then read_entries (DValue key) acc s'
          else None
      | DValue key =>
          if is_space c then read_entries (DValue key) acc s'
          else if is_ident_start c then read_entries (DInValue key (String c "")) acc s'
          else None
      | DInValue key buf =>
          if is_ident_char c then read_entries (DInValue key (buf +:+ String c "")) acc s'
          else if is_space c then read_entries DAfter (acc ++ [(key, buf)]) s'
          else if Ascii.eqb c ","%char then read_entries DKey (acc ++ [(key, buf)]) s'
          else if Ascii.eqb c "}"%char then
            (if String.eqb s' "" then Some (acc ++ [(key, buf)]) else None)
          else None
      | DAfter =>
          if is_space c then read_entries DAfter acc s'
          else if Ascii.eqb c ","%char then read_entries DKey acc s'
          else if Ascii.eqb c "}"%char then
            (if String.eqb s' "" then Some acc else None)
          else None
      end
  end.

Definition eval_dict_literal (s : string) : option (list (string * string)) :=
  match strip_prefix (spaces 8 +:+ "embeddedTypes = {") s with
  | Some s' => read_entries DKey [] s'
  | None => None
  end.

(** [sub in s], for strings. *)
Fixpoint contains (sub s : string) : bool :=
  match strip_prefix sub s with
  | Some _ => true
  | None =>
      match s with
      | "" => false
      | String _ s' => contains sub s'
      end
  end.

(** *** [tests/end_to_end/test_gestalt.py]: [assertLogsWritten]

    The lines are what the server and the client wrote to their standard
    output and error.  A failed assertion ends the test with its
    message. *)

Module test_gestalt.

Inductive TestResult : Type :=
| Passed
| Failed (msg : string).

(** The loops with [break]: [found = True] at the first line with [sub]. *)
Fixpoint found_in (sub : string) (lines : list string) : bool :=
  match lines with
  | [] => false
  | line :: rest => if contains sub line then true else found_in sub rest
  end.

Definition assertLogsWritten
    (serverOutLines serverErrLines clientOutLines clientErrLines : list string)
  : TestResult :=
  if negb (bool_decide (serverOutLines = [])) then
    Failed "Server stdout log not empty"
  else
    let responseFound := found_in " 200 " serverErrLines in
    if negb responseFound then
      Failed "No successful server response logged to stderr"
    else if bool_decide (clientOutLines = []) then
      Failed "Client stdout log is empty"
    else
      let expectedNumClientOutLines := 20%nat in
      if negb (length clientOutLines =? expectedNumClientOutLines)%nat then
        Failed (pretty (length clientOutLines) +:+ " != " +:+
                pretty expectedNumClientOutLines)
      else
        let requestFound := found_in "POST" clientErrLines in
        if negb requestFound then
          Failed "No request logged from the client to stderr"
        else Passed.

End test_gestalt.

(** *** [SchemaProcessor.download]

    What [requests.get(url, stream=True)] and the response can do: the
    request fails, the status is an error one, or the content arrives in
    blocks until its end or until the connection breaks. *)

Module download.

Inductive Stream : Type :=
| EndOfContent
| Block (block : string) (rest : Stream)
| Broken.

Inductive GetResult : Type :=
| RequestFails
| ErrorStatus
| Content (blocks : Stream).

Inductive DownloadError : Type :=
| RequestException
| HTTPError
| ChunkedEncodingError.

Record World : Type := mkWorld {
  files : FileSystem;
  stdout : string;
}.

(** The [for] loop over [response.iter_content(8192)]: what the file and
    the standard output hold after it, and the exception if one ended
    it. *)
Fixpoint iter_content (verbosity : Z) (blocks : Stream) (written out : string)
  : string * string * option DownloadError :=
  match blocks with
  | EndOfContent => (written, out, None)
  | Broken => (written, out, Some ChunkedEncodingError)
  | Block block rest =>
      let out := if bool_decide (verbosity > 1) then out +:+ "." else out in
      let written :=
        if (0 <? String.length block)%nat then written +:+ block
        else written in
      iter_content verbosity rest written out
  end.

(** [SchemaProcessor.download]: the file is opened for writing before the
    request is made, and closed on the way out of the [with] block. *)
Definition download (requests_get : string → GetResult) (verbosity : Z)
    (url destination : string) (w : World) : World * option DownloadError :=
  let out := stdout w in
  let out := if bool_decide (verbosity > 1) then out +:+ "Downloading " +:+ url else out in
  match requests_get url with
  | RequestFails => (mkWorld (<[destination := ""]> (files w)) out, Some RequestException)
  | ErrorStatus => (mkWorld (<[destination := ""]> (files w)) out, Some HTTPError)
  | Content blocks =>
      match iter_content verbosity blocks "" out with
      | (written, out, Some e) =>
          (mkWorld (<[destination := written]> (files w)) out, Some e)
      | (written, out, None) =>
          let out := if bool_decide (verbosity > 1) then out +:+ "done" +:+ nl else out in
          (mkWorld (<[destination := written]> (files w)) out, None)
      end
  end.

(** The blocks of a stream, and whether it ends well. *)
Fixpoint blocks_of (s : Stream) : list string :=
  match s with
  | Block block rest => block :: blocks_of rest
  | _ => []
  end.

Fixpoint complete (s : Stream) : bool :=
  match s with
  | EndOfContent => true
  | Block _ rest => complete rest
  | Broken => false
  end.

End download.

(** More example data. *)

Module more_examples.

Definition Variant_fields : list Field :=
  [mkField "position" examples.Position false;
   mkField "calls" (ArraySchema examples.Position) true;
   mkField "id" (PrimitiveSchema string_) false].

Definition server_err : list string :=
  ["127.0.0.1 - - [03/Feb/2015 12:00:00] POST /variants/search HTTP/1.1 200 -"].

Definition client_err : list string :=
  ["INFO:requests: POST /variants/search"].


(** Externals whose [fmt] ends with status 1. *)
Definition failing_fmt : Externals :=
  mkExternals examples.parse id (λ s, (1, "")) id (λ _, "None").

Definition Variant_class : SchemaClass :=
  mkSchemaClass "Variant.avsc" "Variant"
    (RecordSchema "Variant" (Some "A variant.") Variant_fields) "Variant".

Definition Strand_class : SchemaClass :=
  mkSchemaClass "Strand.avsc" "Strand"
    (EnumSchema "Strand" None ["POS_STRAND"; "NEG_STRAND"]) "Strand".

(** Two generators with the same classes, met in two orders, and one
    without any class. *)
Definition generator_1 : SchemaGenerator :=
  mkSchemaGenerator "v0.5.1" "schemas" "out.py" [Variant_class; Strand_class] [] [] [].

Definition generator_2 : SchemaGenerator :=
  mkSchemaGenerator "v0.5.1" "schemas" "out.py" [Strand_class; Variant_class] [] [] [].

Definition empty_generator : SchemaGenerator :=
  mkSchemaGenerator "v0.5.1" "schemas" "out.py" [] [] [] [].

End more_examples.

(** * Properties *)

Local Arguments String.append : simpl nomatch.

(** ** [sorted] is a sort *)

Section sorted_facts.
Context {A : Type} (key : A → string).

Lemma insert_by_key_perm (x : A) (l : list A) :
  insert_by_key key x l ≡ₚ x :: l.
Proof.
  induction l as [|y l IH]; simpl; [done|].
  destruct (String.leb (key x) (key y)); [done|].
  rewrite IH. apply Permutation_swap.
Qed.

Lemma sorted_perm (l : list A) : sorted key l ≡ₚ l.
Proof.
  induction l as [|x l IH]; simpl; [done|].
  unfold sorted in *. simpl. rewrite insert_by_key_perm. by rewrite IH.
Qed.

Lemma elem_of_sorted (x : A) (l : list A) : x ∈ sorted key l ↔ x ∈ l.
Proof. by rewrite sorted_perm. Qed.

Lemma insert_by_key_Sorted (x : A) (l : list A) :
  Sorted (key_le key) l → Sorted (key_le key) (insert_by_key key x l).
Proof.
  induction 1 as [|y l Hl IH Hhd]; simpl.
  { repeat constructor. }
  destruct (String.leb (key x) (key y)) eqn:Hxy.
  - constructor; [by constructor|]. constructor.
    unfold key_le, String.le. by rewrite Hxy.
  - constructor; [done|].
    assert (key_le key y x) as Hyx.
    { unfold key_le, String.le.
      destruct (String.leb_total (key x) (key y)) as [H|H]; [congruence|].
      by rewrite H. }
    destruct Hhd as [|z l' Hyz]; simpl; [by constructor|].
    destruct (String.leb (key x) (key z)); by constructor.
Qed.

Lemma sorted_Sorted (l : list A) : Sorted (key_le key) (sorted key l).
Proof.
  induction l as [|x l IH]; [constructor|].
  by apply insert_by_key_Sorted.
Qed.
End sorted_facts.

Lemma elem_of_getFields (f : Field) (fields : list Field) :
  f ∈ getFields fields ↔ f ∈ fields.
Proof. apply elem_of_sorted. Qed.

(** ** Embedded-type extraction *)

Lemma embeddedTypeOfField_ok (f : Field) :
  short_union (field_type f) = false →
  first_branch_not_null (field_type f) = false →
  embeddedTypeOfField f =
    Ok (option_list ((λ n, (field_name f, n)) <$> embedded_type (field_type f))).
Proof.
  unfold embeddedTypeOfField.
  destruct (field_type f) as [p| | |items| |schemas|n d fs]; simpl; try done.
  - by destruct items.
  - destruct schemas as [|t0 [|t1 rest]]; simpl; try done.
    intros _ Hnull. apply negb_false_iff in Hnull. rewrite Hnull.
    destruct t0 as [[]| | | | | |]; simpl in Hnull; try done.
    by destruct t1.
Qed.

Lemma embeddedTypeOfField_short (f : Field) :
  short_union (field_type f) = true →
  embeddedTypeOfField f = Raise IndexError.
Proof.
  unfold embeddedTypeOfField.
  destruct (field_type f) as [p| | |items| |schemas|n d fs]; simpl; try done.
  by destruct schemas as [|t0 [|t1 rest]].
Qed.

Lemma embeddedTypeOfField_rejected (f : Field) :
  short_union (field_type f) = false →
  first_branch_not_null (field_type f) = true →
  embeddedTypeOfField f = Raise (Exception "Schema union assumptions violated").
Proof.
  unfold embeddedTypeOfField.
  destruct (field_type f) as [p| | |items| |schemas|n d fs]; simpl; try done.
  destruct schemas as [|t0 [|t1 rest]]; simpl; try done.
  intros _ Hnull. apply negb_true_iff in Hnull. by rewrite Hnull.
Qed.

Lemma embeddedTypesLoop_ok (fields : list Field) (ret : list (string * string)) :
  (∀ f, f ∈ fields →
     short_union (field_type f) = false ∧
     first_branch_not_null (field_type f) = false) →
  embeddedTypesLoop fields ret =
    Ok (ret ++ omap (λ f, (λ n, (field_name f, n)) <$> embedded_type (field_type f)) fields).
Proof.
  revert ret. induction fields as [|f fields IH]; intros ret Hall; simpl.
  { by rewrite app_nil_r. }
  destruct (Hall f) as [Hs Hn]; [left|].
  rewrite embeddedTypeOfField_ok by done. simpl.
  rewrite IH by (intros; apply Hall; by right).
  f_equal. rewrite <-app_assoc. f_equal.
  by destruct (embedded_type (field_type f)).
Qed.

Lemma embeddedTypesLoop_raises (fields : list Field) (ret : list (string * string)) :
  (∃ f, f ∈ fields ∧ raises (embeddedTypeOfField f)) →
  raises (embeddedTypesLoop fields ret).
Proof.
  revert ret. induction fields as [|f fields IH]; intros ret [g [Hg Hr]].
  { by apply elem_of_nil in Hg. }
  simpl. destruct (embeddedTypeOfField f) as [new|e] eqn:Hf; simpl.
  - apply IH. exists g. split; [|done].
    apply elem_of_cons in Hg as [->|Hg]; [|done].
    destruct Hr as [e He]. congruence.
  - by exists e.
Qed.

(** The first exception in the order of the field names is the one raised:
    with every union of two branches or more it is the union-shape one. *)
Lemma embeddedTypesLoop_rejected (fields : list Field) (ret : list (string * string)) :
  (∀ f, f ∈ fields → short_union (field_type f) = false) →
  (∃ f, f ∈ fields ∧ first_branch_not_null (field_type f) = true) →
  embeddedTypesLoop fields ret = Raise (Exception "Schema union assumptions violated").
Proof.
  revert ret. induction fields as [|f fields IH]; intros ret Hshort [g [Hg Hr]].
  { by apply elem_of_nil in Hg. }
  simpl.
  destruct (first_branch_not_null (field_type f)) eqn:Hf.
  - rewrite embeddedTypeOfField_rejected; [done| |done]. apply Hshort; left.
  - rewrite embeddedTypeOfField_ok; [|apply Hshort; left|done]. simpl.
    apply IH; [intros; apply Hshort; by right|].
    exists g. split; [|done].
    apply elem_of_cons in Hg as [->|Hg]; [congruence|done].
Qed.

Lemma first_branch_not_null_raises (f : Field) :
  first_branch_not_null (field_type f) = true → raises (embeddedTypeOfField f).
Proof.
  intros Hn. destruct (short_union (field_type f)) eqn:Hs.
  - eexists. by apply embeddedTypeOfField_short.
  - eexists. by apply embeddedTypeOfField_rejected.
Qed.

Lemma elem_of_embedded_pairs (fields : list Field) (fn tn : string) :
  (fn, tn) ∈ embedded_pairs fields ↔
  ∃ f, f ∈ fields ∧ field_name f = fn ∧ embedded_type (field_type f) = Some tn.
Proof.
  unfold embedded_pairs. rewrite list_elem_of_omap. split.
  - intros (f & Hf & Hemb). exists f. rewrite <-elem_of_getFields. split; [done|].
    destruct (embedded_type (field_type f)); simplify_eq/=; done.
  - intros (f & Hf & <- & Hemb). exists f. rewrite elem_of_getFields. split; [done|].
    by rewrite Hemb.
Qed.

(** C1 (as amended).  For a record schema whose unions all have two
    branches or more: when no union field has a first branch other than
    null, extraction returns, in the order of the field names, exactly
    the pairs (field name, type name) of the fields that are a record, an
    array of records, or a union whose first branch is null and whose
    second branch is a record; when some union field has a first branch
    other than null, extraction raises the union-shape exception.  In
    every record schema, a union field whose first branch is not null
    makes extraction fail. *)
Theorem getEmbeddedTypes_exact (n : string) (doc : option string) (fields : list Field) :
  ((∀ f, f ∈ fields → short_union (field_type f) = false) →
   (∀ f, f ∈ fields → first_branch_not_null (field_type f) = false) →
     getEmbeddedTypes (RecordSchema n doc fields) = Ok (embedded_pairs fields) ∧
     ∀ fn tn, (fn, tn) ∈ embedded_pairs fields ↔
       ∃ f, f ∈ fields ∧ field_name f = fn ∧
            embedded_type (field_type f) = Some tn) ∧
  ((∀ f, f ∈ fields → short_union (field_type f) = false) →
   (∃ f, f ∈ fields ∧ first_branch_not_null (field_type f) = true) →
     getEmbeddedTypes (RecordSchema n doc fields) =
       Raise (Exception "Schema union assumptions violated")) ∧
  ((∃ f, f ∈ fields ∧ first_branch_not_null (field_type f) = true) →
     raises (getEmbeddedTypes (RecordSchema n doc fields))).
Proof.
  split; [|split].
  - intros Hs Hn. split; [|apply elem_of_embedded_pairs].
    simpl. rewrite embeddedTypesLoop_ok; [reflexivity|].
    intros f Hf. rewrite elem_of_getFields in Hf. auto.
  - intros Hs (f & Hf & Hr). simpl. apply embeddedTypesLoop_rejected.
    + intros g Hg. rewrite elem_of_getFields in Hg. auto.
    + exists f. by rewrite elem_of_getFields.
  - intros (f & Hf & Hr). simpl. apply embeddedTypesLoop_raises.
    exists f. rewrite elem_of_getFields. split; [done|].
    by apply first_branch_not_null_raises.
Qed.

(** ** Route pairs *)

Lemma strip_prefix_Some (p s r : string) :
  strip_prefix p s = Some r → s = p +:+ r.
Proof.
  revert s. induction p as [|a p IH]; intros [|b s]; simpl; try congruence.
  destruct (Ascii.eqb a b) eqn:Hab; [|done].
  apply Ascii.eqb_eq in Hab as ->. intros ->%IH. done.
Qed.

Lemma strip_prefix_app (p r : string) : strip_prefix p (p +:+ r) = Some r.
Proof.
  induction p as [|a p IH]; simpl; [by destruct r|].
  by rewrite Ascii.eqb_refl.
Qed.

Lemma dot_plus_Some (post s g : string) :
  re.dot_plus post s = Some g →
  g ≠ "" ∧ re.all_dot g = true ∧ ∃ b, s = g +:+ post +:+ b.
Proof.
  revert g. induction s as [|c s IH]; intros g; simpl; [done|].
  destruct (re.dot c) eqn:Hc; [|done].
  destruct (re.dot_plus post s) as [g'|].
  - intros [= <-]. split; [done|].
    destruct (IH g' eq_refl) as (_ & Hdot & b & ->).
    split; [simpl; by rewrite Hc|]. by exists b.
  - destruct (strip_prefix post s) as [b|] eqn:Hpost; [|done].
    intros [= <-]. split; [done|]. split; [simpl; by rewrite Hc|].
    apply strip_prefix_Some in Hpost as ->. by exists b.
Qed.

Lemma dot_plus_complete (post g b : string) :
  g ≠ "" → re.all_dot g = true →
  is_Some (re.dot_plus post (g +:+ post +:+ b)).
Proof.
  induction g as [|c g IH]; [done|]. intros _ Hdot. simpl in Hdot.
  apply andb_prop in Hdot as [Hc Hdot]. simpl. rewrite Hc.
  destruct g as [|c' g].
  - simpl. destruct (re.dot_plus post (post +:+ b)); [done|].
    by rewrite strip_prefix_app.
  - destruct (IH ltac:(done) Hdot) as [g' ->]. done.
Qed.

Lemma match_at_Some (pre post s g : string) :
  re.match_at pre post s = Some g →
  g ≠ "" ∧ re.all_dot g = true ∧ ∃ b, s = pre +:+ g +:+ post +:+ b.
Proof.
  unfold re.match_at.
  destruct (strip_prefix pre s) as [s'|] eqn:Hpre; [|done].
  intros (Hg & Hdot & b & Hb)%dot_plus_Some. split; [done|]. split; [done|].
  apply strip_prefix_Some in Hpre. exists b. by rewrite Hpre, Hb.
Qed.

Lemma search_Some (pre post s g : string) :
  re.search pre post s = Some g →
  g ≠ "" ∧ re.all_dot g = true ∧ ∃ a b, s = a +:+ pre +:+ g +:+ post +:+ b.
Proof.
  induction s as [|c s IH]; simpl.
  - destruct (re.match_at pre post "") as [g'|] eqn:Hm; [|done].
    intros [= ->]. apply match_at_Some in Hm as (Hg & Hdot & b & Hb).
    split; [done|]. split; [done|]. by exists "", b.
  - destruct (re.match_at pre post (String c s)) as [g'|] eqn:Hm.
    + intros [= ->]. apply match_at_Some in Hm as (Hg & Hdot & b & Hb).
      split; [done|]. split; [done|]. by exists "", b.
    + intros (Hg & Hdot & a & b & ->)%IH. split; [done|]. split; [done|].
      by exists (String c a), b.
Qed.

Lemma search_match_at (pre post s g : string) :
  re.match_at pre post s = Some g → re.search pre post s = Some g.
Proof. intros Hm. destruct s; simpl; by rewrite Hm. Qed.

(** [re.search] finds a match wherever there is one. *)
Lemma search_complete (pre post a g b : string) :
  g ≠ "" → re.all_dot g = true →
  is_Some (re.search pre post (a +:+ pre +:+ g +:+ post +:+ b)).
Proof.
  intros Hg Hdot.
  assert (is_Some (re.match_at pre post (pre +:+ g +:+ post +:+ b))) as [g' Hm].
  { unfold re.match_at. rewrite strip_prefix_app. by apply dot_plus_complete. }
  induction a as [|c a IH].
  - exists g'. by apply search_match_at.
  - change (String c a +:+ ?r) with (String c (a +:+ r)). cbn [re.search].
    destruct (re.match_at pre post (String c _)) as [g0|]; [by eexists|]. apply IH.
Qed.

(** The names the first pattern selects: those with a [Search], then one
    character or more and no newline, then a [Request]. *)
Lemma isRequestName_iff (n : string) :
  isRequestName n = true ↔
  ∃ a X b, n = a +:+ "Search" +:+ X +:+ "Request" +:+ b ∧
           X ≠ "" ∧ re.all_dot X = true.
Proof.
  unfold isRequestName. rewrite bool_decide_eq_true. split.
  - intros [X (Hne & Hdot & a & b & ->)%search_Some]. by exists a, X, b.
  - intros (a & X & b & -> & Hne & Hdot). by apply search_complete.
Qed.

Lemma isResponseName_iff (n : string) :
  isResponseName n = true ↔
  ∃ a X b, n = a +:+ "Search" +:+ X +:+ "Response" +:+ b ∧
           X ≠ "" ∧ re.all_dot X = true.
Proof.
  unfold isResponseName. rewrite bool_decide_eq_true. split.
  - intros [X (Hne & Hdot & a & b & ->)%search_Some]. by exists a, X, b.
  - intros (a & X & b & -> & Hne & Hdot). by apply search_complete.
Qed.

(** The two patterns on some names: the leftmost [Search] that can be
    completed, the longest text before a [Request], and one character at
    least in between. *)
Example search_examples :
  re.search "Search" "Request" "SearchVariantsRequest" = Some "Variants" ∧
  re.search "Search" "Request" "SearchRequest" = None ∧
  re.search "Search" "Request" "GASearchReadsRequestV2" = Some "Reads" ∧
  re.search "Search" "Request" "SearchCallRequestSearchSetRequest" =
    Some "CallRequestSearchSet" ∧
  re.search "Search" "Response" "SearchVariantsRequest" = None ∧
  lower "VariantSets" = "variantsets".
Proof. repeat split. Qed.

Lemma isRequestName_search (n : string) :
  isRequestName n = true → ∃ X, re.search "Search" "Request" n = Some X.
Proof. unfold isRequestName. intros [X HX]%bool_decide_eq_true. by exists X. Qed.

Lemma mapM_Ok {A B} (f : A → result B) (g : A → B) (l : list A) :
  (∀ x, x ∈ l → f x = Ok (g x)) → mapM f l = Ok (g <$> l).
Proof.
  induction l as [|x l IH]; intros Hf; simpl; [done|].
  rewrite Hf by left. simpl. rewrite IH; [done|]. intros; apply Hf; by right.
Qed.

Lemma mapM_Raise {A B} (f : A → result B) (l : list A) (e : PyExn) :
  mapM f l = Raise e → ∃ x, x ∈ l ∧ f x = Raise e.
Proof.
  induction l as [|x l IH]; simpl; [done|].
  destruct (f x) as [y|e'] eqn:Hx; simpl.
  - destruct (mapM f l) as [ys|e']; simpl; [done|].
    intros [= ->]. destruct IH as (z & Hz & Hfz); [done|]. exists z. split; [by right|done].
  - intros [= ->]. exists x. split; [left|done].
Qed.

(** The wire path of a request name: the group of the match, lower-cased. *)
Lemma postSignature_request (request response : string) :
  isRequestName request = true →
  ∃ X, re.search "Search" "Request" request = Some X ∧
       postSignature (request, response) =
         Ok ("/" +:+ lower X +:+ "/search", request, response).
Proof.
  intros [X HX]%isRequestName_search. exists X. split; [done|].
  unfold postSignature. simpl. by rewrite HX.
Qed.

(** Once the classes are loaded, [__init__] cannot fail. *)
Lemma SchemaGenerator_of_classes_returns (version schemaDir outputFile : string)
    (classes : list SchemaClass) :
  ∃ sg, SchemaGenerator_of_classes version schemaDir outputFile classes = Ok sg.
Proof.
  unfold SchemaGenerator_of_classes.
  destruct (mapM postSignature _) as [sigs|e] eqn:Hm; simpl; [by eexists|].
  apply mapM_Raise in Hm as ([request response] & Hin & Hraise).
  apply elem_of_zip_l, list_elem_of_filter in Hin as [Hreq _]. simpl in Hreq.
  destruct (postSignature_request request response Hreq) as (X & _ & HX).
  congruence.
Qed.

Lemma SchemaGenerator_init_returns (ext : Externals) (version schemaDir outputFile : string)
    (avscFiles : list (string * string)) (cs : list SchemaClass) :
  mapM (SchemaClass_init ext) avscFiles = Ok cs →
  ∃ sg, SchemaGenerator_init ext version schemaDir outputFile avscFiles = Ok sg ∧
        classes sg = cs.
Proof.
  intros Hload. unfold SchemaGenerator_init. rewrite Hload. simpl.
  destruct (SchemaGenerator_of_classes_returns version schemaDir outputFile cs)
    as [sg Hsg].
  exists sg. split; [done|].
  unfold SchemaGenerator_of_classes in Hsg.
  destruct (mapM postSignature _); simpl in Hsg; [|done]. by injection Hsg as <-.
Qed.


(** ** Strings *)

Lemma append_assoc (a b c : string) : (a +:+ b) +:+ c = a +:+ (b +:+ c).
Proof. induction a as [|x a IH]; simpl; [done|]. by rewrite IH. Qed.

Lemma append_nil_r (a : string) : a +:+ "" = a.
Proof. induction a as [|x a IH]; simpl; [done|]. by rewrite IH. Qed.

Lemma foldl_append {A} (g : A → string) (init : string) (l : list A) :
  foldl (λ s x, s +:+ g x) init l = init +:+ foldr (λ x r, g x +:+ r) "" l.
Proof.
  revert init. induction l as [|x l IH]; intros init; simpl.
  { by rewrite append_nil_r. }
  by rewrite IH, append_assoc.
Qed.

(** ** Required fields *)












(** ** Server configuration *)

(** C10.  The default configuration disables request and response
    validation and limits the content length to 2 * 1024 * 1024 bytes;
    the test configuration does not assign the limit and reads the
    inherited one, and enables both validations;
    [TestWithoutValidationConfig] disables both again. *)
Theorem serverconfig_values :
  let MAX := "MAX_CONTENT_LENGTH" in
  let REQ := "REQUEST_VALIDATION" in
  let RESP := "RESPONSE_VALIDATION" in
  serverconfig.getattr serverconfig.DefaultConfig REQ = Some (serverconfig.PyBool false) ∧
  serverconfig.getattr serverconfig.DefaultConfig RESP = Some (serverconfig.PyBool false) ∧
  serverconfig.getattr serverconfig.DefaultConfig MAX = Some (serverconfig.PyInt 2097152) ∧
  2097152 = 2 * 1024 * 1024 ∧
  serverconfig.class_dict (serverconfig.class_body serverconfig.TestConfig) !! MAX = None ∧
  serverconfig.getattr serverconfig.TestConfig MAX =
    serverconfig.getattr serverconfig.DefaultConfig MAX ∧
  serverconfig.getattr serverconfig.TestConfig REQ = Some (serverconfig.PyBool true) ∧
  serverconfig.getattr serverconfig.TestConfig RESP = Some (serverconfig.PyBool true) ∧
  serverconfig.getattr serverconfig.TestWithoutValidationConfig REQ =
    Some (serverconfig.PyBool false) ∧
  serverconfig.getattr serverconfig.TestWithoutValidationConfig RESP =
    Some (serverconfig.PyBool false) ∧
  serverconfig.getattr serverconfig.TestWithoutValidationConfig MAX =
    Some (serverconfig.PyInt 2097152).
Proof.
  repeat split; vm_compute; reflexivity.
Qed.

(** ** The exception taxonomy *)

Import test_exceptions.

Lemma codeInvariantsLoop_Passed (classes : list ExceptionClass) (codes : gset (option Z)) :
  codeInvariantsLoop classes codes = Passed ↔
  (∀ c, c ∈ classes → getErrorCode c ≠ None ∧ getErrorCode c ∉ codes) ∧
  NoDup (getErrorCode <$> classes).
Proof.
  revert codes. induction classes as [|c classes IH]; intros codes.
  { split; [|done]. intros _. split; [by intros ? ?%elem_of_nil|constructor]. }
  rewrite fmap_cons, NoDup_cons. cbn [codeInvariantsLoop].
  case_bool_decide as Hin.
  { split; [done|]. intros [Hall _]. destruct (Hall c) as [_ ?]; [left|done]. }
  case_bool_decide as Hnone.
  { split; [done|]. intros [Hall _]. destruct (Hall c) as [? _]; [left|done]. }
  rewrite IH. split.
  - intros [Hall Hnd]. split; [|split; [|done]].
    + intros c' [->|Hc']%elem_of_cons; [done|].
      destruct (Hall c' Hc') as [? Hnotin]. split; [done|].
      intros ?. apply Hnotin, elem_of_union. by left.
    + intros (c' & Heq & Hc')%list_elem_of_fmap.
      destruct (Hall c' Hc') as [_ Hnotin].
      apply Hnotin, elem_of_union. right. by apply elem_of_singleton.
  - intros [Hall [Hfresh Hnd]]. split; [|done].
    intros c' Hc'. destruct (Hall c') as [? ?]; [by right|]. split; [done|].
    intros [?|Heq%elem_of_singleton]%elem_of_union; [done|].
    apply Hfresh. rewrite <-Heq. by apply list_elem_of_fmap_2.
Qed.

Lemma testCodeInvariants_Passed (classes : list ExceptionClass) :
  testCodeInvariants classes = Passed ↔
  (∀ c, c ∈ classes → getErrorCode c ≠ None) ∧ NoDup (getErrorCode <$> classes).
Proof.
  unfold testCodeInvariants. rewrite codeInvariantsLoop_Passed. split.
  - intros [Hall ?]. split; [|done]. intros c Hc. by destruct (Hall c Hc).
  - intros [Hall ?]. split; [|done]. intros c Hc. split; [by apply Hall|apply not_elem_of_empty].
Qed.


(** The test accepts every taxonomy that has the two properties. *)
Lemma testCodeInvariants_complete (classes : list ExceptionClass) :
  (∀ c, c ∈ classes → getErrorCode c ≠ None) →
  (∀ (i j : nat) (ci cj : ExceptionClass),
     classes !! i = Some ci → classes !! j = Some cj → i ≠ j →
     getErrorCode ci ≠ getErrorCode cj) →
  testCodeInvariants classes = Passed.
Proof.
  intros Hall Hdiff. apply testCodeInvariants_Passed. split; [done|].
  apply NoDup_alt. intros i j code Hi Hj.
  rewrite list_lookup_fmap in Hi, Hj.
  destruct (classes !! i) as [ci|] eqn:Hci; [|done].
  destruct (classes !! j) as [cj|] eqn:Hcj; [|done].
  simpl in Hi, Hj. destruct (decide (i = j)) as [|Hne]; [done|].
  destruct (Hdiff i j ci cj Hci Hcj Hne). congruence.
Qed.

Lemma NoDup_fmap_inj_on {A B} (f : A → B) (l : list A) (x y : A) :
  NoDup (f <$> l) → x ∈ l → y ∈ l → f x = f y → x = y.
Proof.
  induction l as [|a l IH]; [by intros _ ?%elem_of_nil|].
  rewrite fmap_cons, NoDup_cons. intros [Hnotin Hnd] Hx Hy Hxy.
  apply elem_of_cons in Hx as [->|Hx]; apply elem_of_cons in Hy as [->|Hy]; [done|..].
  - destruct Hnotin. rewrite Hxy. by apply list_elem_of_fmap_2.
  - destruct Hnotin. rewrite <-Hxy. by apply list_elem_of_fmap_2.
  - by apply IH.
Qed.

(** On the exception module of the handler: when its classes pass the
    test, different kinds have different codes. *)
Lemma module_codes_distinct (m : exceptions.ExceptionsModule) (k1 k2 : exceptions.Kind) :
  testCodeInvariants (classes_of m) = Passed →
  exceptions.getErrorCode m k1 = exceptions.getErrorCode m k2 → k1 = k2.
Proof.
  intros [_ Hnd]%testCodeInvariants_Passed Heq.
  unfold classes_of in Hnd. rewrite <-list_fmap_compose in Hnd.
  eapply (NoDup_fmap_inj_on _ _ k1 k2 Hnd).
  - destruct k1; unfold exceptions.kinds; set_solver.
  - destruct k2; unfold exceptions.kinds; set_solver.
  - simpl. by rewrite Heq.
Qed.

(** ** The central exception handler *)

Import exceptions frontend.

(** C5.  For an exception from outside the taxonomy the handler answers
    with status 500 and a body whose message is the fixed message of
    [ServerError] and whose code is the code of [ServerError]; the answer
    is the same for every such exception, so nothing of the exception,
    its message included, reaches the wire. *)
Theorem handleException_unknown (m : ExceptionsModule) (exception : PyException) :
  in_taxonomy exception = false →
  status_code (handleException m exception) = 500 ∧
  message (data (handleException m exception)) = ServerError_message m ∧
  errorCode (data (handleException m exception)) = exceptions.getErrorCode m ServerError ∧
  ∀ exception', in_taxonomy exception' = false →
    handleException m exception' = handleException m exception.
Proof.
  destruct exception as [k msg|cls msg]; [done|]. intros _.
  repeat split. by intros [k' msg'|cls' msg'].
Qed.

(** The other tests of [TestExceptionHandler] hold of the handler. *)
Lemma handleException_known (m : ExceptionsModule) (k : Kind) (msg : string) :
  handleException m (ServerException k msg) =
    mkResponse (httpStatus k) (mkGAException (exceptions.getErrorCode m k) msg).
Proof. done. Qed.

Lemma testNotImplementedException (m : ExceptionsModule) :
  let message_ := "A string unlikely to occur at random." in
  let response := handleException m (ServerException NotImplementedException message_) in
  status_code response = 501 ∧ message (data response) = message_.
Proof. done. Qed.

Lemma testObjectNotFoundException (m : ExceptionsModule) (msg : string) :
  status_code (handleException m (ServerException ObjectNotFoundException msg)) = 404 ∧
  status_code (handleException m (ServerException CallSetNotInVariantSetException msg)) = 404.
Proof. done. Qed.

(** ** The serialization round trip *)

Import protocol.

(** Induction on values, through the lists they hold. *)
Lemma Value_ind_nested (P : Value → Prop) :
  P VNone → (∀ b, P (VBool b)) → (∀ z, P (VInt z)) → (∀ s, P (VStr s)) →
  (∀ l, Forall P l → P (VList l)) →
  (∀ entries, Forall (λ kv, P kv.2) entries → P (VDict entries)) →
  (∀ T attrs, Forall (λ kv, P kv.2) attrs → P (VObject T attrs)) →
  ∀ v, P v.
Proof.
  intros HNone HBool HInt HStr HList HDict HObject.
  fix IH 1. intros [|b|z|s|l|entries|T attrs];
    [apply HNone|apply HBool|apply HInt|apply HStr| | |].
  - apply HList. induction l as [|v l IHl]; constructor; [apply IH|apply IHl].
  - apply HDict. induction entries as [|[k v] l IHl]; constructor; [apply IH|apply IHl].
  - apply HObject. induction attrs as [|[k v] l IHl]; constructor; [apply IH|apply IHl].
Qed.

Lemma setattr_fresh (attrs : list (string * Value)) (k : string) (v : Value) :
  k ∉ attrs.*1 → setattr attrs k v = attrs.
Proof.
  induction attrs as [|[k' v'] attrs IH]; simpl; [done|].
  rewrite not_elem_of_cons. intros [Hne Hnotin].
  destruct (decide (k' = k)); [congruence|]. by rewrite IH.
Qed.

Lemma setattr_middle (pre rest : list (string * Value)) (k : string) (v0 v : Value) :
  k ∉ pre.*1 →
  setattr (pre ++ (k, v0) :: rest) k v = pre ++ (k, v) :: rest.
Proof.
  induction pre as [|[k' v'] pre IH]; simpl.
  { intros _. by destruct (decide (k = k)). }
  rewrite not_elem_of_cons. intros [Hne Hnotin].
  destruct (decide (k' = k)); [congruence|]. by rewrite IH.
Qed.

(** Assigning every attribute, in order, to the default object. *)
Lemma foldl_setattr_all (pre base attrs : list (string * Value)) :
  base.*1 = attrs.*1 → NoDup (pre.*1 ++ attrs.*1) →
  foldl (λ a kv, setattr a kv.1 kv.2) (pre ++ base) attrs = pre ++ attrs.
Proof.
  revert pre base. induction attrs as [|[k v] attrs IH]; intros pre [|[k0 v0] base]; try done.
  rewrite !fmap_cons. simpl. intros [= -> Hkeys] Hnd.
  rewrite setattr_middle.
  - rewrite (cons_middle (k, v) pre base), (cons_middle (k, v) pre attrs), !app_assoc.
    apply IH; [done|].
    rewrite fmap_app. simpl. rewrite <-app_assoc. done.
  - apply NoDup_app in Hnd as (_ & Hdisj & _). intros Hin.
    apply (Hdisj k Hin). left.
Qed.

(** What the round trip needs of a value: as an object it is read back
    as it was, and so is, as a sequence, each of its elements. *)
Lemma fromJsonDict_toJsonDict_aux (reg : Registry) (v : Value) :
  (∀ T, wellFormed reg T v = true → fromJsonDict reg T (toJsonDict reg v) = v) ∧
  (∀ E l, v = VList l → forallb (wellFormed reg E) l = true →
          fromJsonDict reg E <$> (toJsonDict reg <$> l) = l).
Proof.
  induction v as [| | | |l IH|entries _|T' attrs IH] using Value_ind_nested;
    try (split; [done|by intros ?? [=]]).
  - split; [done|]. intros E l' [= <-] Hwf.
    induction l as [|x l IHl]; [done|].
    simpl in Hwf. apply andb_prop in Hwf as [Hx Hl].
    apply Forall_cons in IH as [[IHx _] IH].
    rewrite !fmap_cons. f_equal; [by apply IHx|by apply IHl].
  - split; [|by intros ?? [=]]. intros T Hwf.
    simpl in Hwf. destruct (reg !! T) as [td|] eqn:Htd; [|done].
    apply andb_prop in Hwf as [Hwf Hattrs].
    apply andb_prop in Hwf as [Hwf Hnd]. apply andb_prop in Hwf as [HT Hkeys].
    apply bool_decide_eq_true in HT as ->. apply bool_decide_eq_true in Hkeys.
    apply bool_decide_eq_true in Hnd.
    cbn [toJsonDict fromJsonDict]. rewrite Htd. cbn [mbind option_bind].
    f_equal. rewrite <-list_fmap_compose.
    etrans; [|by apply (foldl_setattr_all [] (fields td) attrs)].
    f_equal. clear Hkeys Hnd.
    induction attrs as [|[f v] attrs IHattrs]; [done|].
    simpl in Hattrs. apply andb_prop in Hattrs as [Hv Hattrs].
    apply Forall_cons in IH as [[IHv IHl] IH]. simpl in IHv, IHl.
    rewrite fmap_cons. f_equal; [|by apply IHattrs].
    simpl. f_equal.
    destruct (embeddedTypes td !! f) as [E|]; [|done].
    destruct v as [| | | |l|entries|T' attrs']; try done.
    + f_equal. by apply IHl.
    + by apply IHv.
Qed.

(** C8.  A well-formed Protocol Object of type [T], serialized by
    [toJsonDict] and read back by [fromJsonDict] at type [T], is the
    object itself. *)
Theorem fromJsonDict_toJsonDict (reg : Registry) (T : string) (o : Value) :
  wellFormed reg T o = true →
  fromJsonDict reg T (toJsonDict reg o) = o.
Proof.
  intros Hwf.
  destruct (fromJsonDict_toJsonDict_aux reg o) as [Hobject _].
  by apply Hobject.
Qed.

(** What [toJsonDict] makes of a well-formed object is JSON data: no
    protocol object is left in it. *)
Lemma toJsonDict_is_json_aux (reg : Registry) (v : Value) :
  (∀ T, wellFormed reg T v = true → is_json (toJsonDict reg v) = true) ∧
  (∀ E l, v = VList l → forallb (wellFormed reg E) l = true →
          forallb is_json (toJsonDict reg <$> l) = true).
Proof.
  induction v as [| | | |l IH|entries _|T' attrs IH] using Value_ind_nested;
    try (split; [done|by intros ?? [=]]).
  - split; [done|]. intros E l' [= <-] Hwf.
    induction l as [|x l IHl]; [done|].
    simpl in Hwf. apply andb_prop in Hwf as [Hx Hl].
    apply Forall_cons in IH as [[IHx _] IH].
    rewrite fmap_cons. cbn [forallb]. apply andb_true_intro.
    split; [by apply (IHx E)|by apply IHl].
  - split; [|by intros ?? [=]]. intros T Hwf.
    simpl in Hwf. destruct (reg !! T) as [td|] eqn:Htd; [|done].
    apply andb_prop in Hwf as [Hwf Hattrs].
    apply andb_prop in Hwf as [Hwf _]. apply andb_prop in Hwf as [HT _].
    apply bool_decide_eq_true in HT as ->.
    cbn [toJsonDict is_json]. rewrite Htd. cbn [mbind option_bind].
    induction attrs as [|[f v] attrs IHattrs]; [done|].
    simpl in Hattrs. apply andb_prop in Hattrs as [Hv Hattrs].
    apply Forall_cons in IH as [[IHv IHl] IH]. simpl in IHv, IHl.
    rewrite fmap_cons. cbn [forallb]. apply andb_true_intro.
    split; [|by apply IHattrs].
    simpl. destruct (embeddedTypes td !! f) as [E|]; [|done].
    destruct v as [| | | |l|entries|T' attrs']; try done.
    + cbn [is_json]. by apply (IHl E).
    + by apply (IHv E).
Qed.

Lemma toJsonDict_is_json (reg : Registry) (T : string) (o : Value) :
  wellFormed reg T o = true → is_json (toJsonDict reg o) = true.
Proof. apply toJsonDict_is_json_aux. Qed.

(** ** Errors during a generation run *)

Section writers.
Context {A B : Type}.

Lemma appends_ret (a : A) : appends (mret a : Writer A).
Proof. intros out. exists "". simpl. by rewrite append_nil_r. Qed.

Lemma appends_wlift (r : result A) : appends (wlift r).
Proof. intros out. exists "". simpl. by rewrite append_nil_r. Qed.

Lemma appends_bind (m : Writer A) (k : A → Writer B) :
  appends m → (∀ a, appends (k a)) → appends (m ≫= k).
Proof.
  intros Hm Hk out. unfold mbind, Writer_bind, wbind.
  destruct (Hm out) as [s Hs]. destruct (m out) as [out' [a|e]]; simpl in *; subst.
  - destruct (Hk a (out +:+ s)) as [s' Hs']. exists (s +:+ s').
    by rewrite Hs', append_assoc.
  - by exists s.
Qed.


End writers.

Lemma appends_fwrite (s : string) : appends (fwrite s).
Proof. intros out. by exists s. Qed.

Lemma appends_print (s : string) : appends (print s).
Proof. apply appends_fwrite. Qed.

Lemma appends_wforeach {A} (f : A → Writer ()) (l : list A) :
  (∀ x, appends (f x)) → appends (wforeach f l).
Proof.
  intros Hf. induction l as [|x l IH]; simpl; [apply appends_ret|].
  apply appends_bind; [apply Hf|done].
Qed.



Lemma appends_if {A} (b : bool) (w1 w2 : Writer A) :
  appends w1 → appends w2 → appends (if b then w1 else w2).
Proof. by destruct b. Qed.

Ltac appends_steps :=
  repeat first
    [ apply appends_print | apply appends_fwrite | apply appends_wlift
    | apply appends_ret
    | apply appends_if
    | apply appends_wforeach; intros ?
    | apply appends_bind; [|intros ?] ].

Lemma appends_writeEmbeddedTypesClassMethods (sch : Schema) :
  appends (writeEmbeddedTypesClassMethods sch).
Proof. unfold writeEmbeddedTypesClassMethods. appends_steps. Qed.

Lemma appends_writeConstructor (ext : Externals) (fields : list Field) :
  appends (writeConstructor ext fields).
Proof. unfold writeConstructor. appends_steps. Qed.




Lemma classesByName_lookup (cs : list SchemaClass) (n : string) (cls : SchemaClass) :
  classesByName cs !! n = Some cls → cls ∈ cs ∧ name cls = n.
Proof.
  unfold classesByName.
  assert (∀ m : gmap string SchemaClass,
            foldl (λ m c, <[name c := c]> m) m cs !! n = Some cls →
            m !! n = Some cls ∨ (cls ∈ cs ∧ name cls = n)) as Hgen.
  { induction cs as [|c cs IH]; intros m; simpl; [by left|].
    intros [Hm|[Hin Hn]]%IH.
    - destruct (decide (name c = n)) as [<-|Hne].
      + rewrite lookup_insert_eq in Hm. injection Hm as ->. right. split; [left|done].
      + rewrite lookup_insert_ne in Hm by done. by left.
    - right. split; [by right|done]. }
  intros [Hm|?]%Hgen; [|done]. by rewrite lookup_empty in Hm.
Qed.



Lemma SchemaGenerator_init_outputFile (ext : Externals)
    (version schemaDir out : string) (avscFiles : list (string * string))
    (sg : SchemaGenerator) :
  SchemaGenerator_init ext version schemaDir out avscFiles = Ok sg →
  outputFile sg = out.
Proof.
  unfold SchemaGenerator_init, SchemaGenerator_of_classes.
  destruct (mapM (SchemaClass_init ext) avscFiles); simpl; [|done].
  destruct (mapM postSignature _); simpl; [|done]. by intros [= <-].
Qed.



(** ** The properties on the example data *)

Ltac each_elem H :=
  repeat (apply elem_of_cons in H as [->|H]; [reflexivity|]);
  by apply elem_of_nil in H.

(** C1, on the form the design document gives it: the field [position]
    is a union of three branches, which is not one of the three shapes
    and has no first branch to reject, so the document asks for no pair;
    the script returns the pair of its second branch. *)
Lemma getEmbeddedTypes_three_branch_union :
  let fields := [mkField "position" examples.three_branch_union false] in
  spec_embedded_type examples.three_branch_union = None ∧
  first_branch_not_null examples.three_branch_union = false ∧
  spec_embedded_pairs fields = [] ∧
  getEmbeddedTypes (RecordSchema "Variant" None fields) = Ok [("position", "Position")].
Proof. by vm_compute. Qed.

(** A union of one branch, null: no first branch to reject, and the
    script fails on the missing second branch. *)
Lemma getEmbeddedTypes_one_branch_union :
  first_branch_not_null examples.one_branch_union = false ∧
  getEmbeddedTypes
    (RecordSchema "Variant" None [mkField "position" examples.one_branch_union false]) =
    Raise IndexError.
Proof. by vm_compute. Qed.

Lemma getEmbeddedTypes_exact_witness :
  getEmbeddedTypes (RecordSchema "ReadAlignment" None examples.ReadAlignment_fields) =
    Ok [("nextMatePosition", "Position"); ("origin", "Position");
        ("positions", "Position")] ∧
  getEmbeddedTypes
    (RecordSchema "Variant" None [mkField "position" examples.null_second_union false]) =
    Raise (Exception "Schema union assumptions violated").
Proof.
  split.
  - destruct (getEmbeddedTypes_exact "ReadAlignment" None examples.ReadAlignment_fields)
      as [Hexact _].
    destruct Hexact as [-> _]; [intros f Hf; each_elem Hf..|].
    by vm_compute.
  - destruct (getEmbeddedTypes_exact "Variant" None
                [mkField "position" examples.null_second_union false])
      as (_ & Hreject & _).
    apply Hreject; [intros f Hf; each_elem Hf|].
    eexists. split; [left|reflexivity].
Defined.




(** A module with two classes of the same code fails the test. *)
Lemma testCodeInvariants_rejects_shared_code :
  testCodeInvariants
    [mkExceptionClass "ServerError" (Some 3);
     mkExceptionClass "NotImplementedException" (Some 3)] = AssertionError.
Proof. reflexivity. Qed.

Lemma handleException_unknown_witness :
  let response :=
    handleException examples.exceptions_module
      (OtherException "UnknownException" "a message of its own") in
  status_code response = 500 ∧
  message (data response) = "Internal server error".
Proof.
  destruct (handleException_unknown examples.exceptions_module
              (OtherException "UnknownException" "a message of its own") eq_refl)
    as (Hstatus & Hmessage & _).
  split; [exact Hstatus|exact Hmessage].
Defined.

Lemma fromJsonDict_toJsonDict_witness :
  fromJsonDict examples.registry "SearchReadsResponse"
    (toJsonDict examples.registry examples.response) = examples.response.
Proof. apply fromJsonDict_toJsonDict. by vm_compute. Defined.



(** * Further properties of the script and of the tests *)

(** ** The order of the fields *)

Lemma key_le_trans {A} (key : A → string) : Transitive (key_le key).
Proof. intros x y z. unfold key_le. apply (transitivity (R:=String.le)). Qed.

(** Two lists sorted by a key that tells their elements apart, with the
    same elements, are the same list. *)
Lemma sorted_order_independent {A} (key : A → string) (l l' : list A) :
  l ≡ₚ l' → NoDup (key <$> l) → sorted key l = sorted key l'.
Proof.
  intros Hperm Hnd.
  apply (Sorted_unique_strong (key_le key) (Transitive0:=key_le_trans key)).
  - intros x1 x2 Hx1 Hx2 H12 H21.
    rewrite elem_of_sorted in Hx1. rewrite elem_of_sorted, <-Hperm in Hx2.
    apply (NoDup_fmap_inj_on key l x1 x2 Hnd Hx1 Hx2).
    by apply (anti_symm String.le).
  - apply sorted_Sorted.
  - apply sorted_Sorted.
  - by rewrite !sorted_perm.
Qed.

(** X1.  [getFields] returns the fields of the schema, each as often as
    it is declared, in ascending order of their names. *)
Theorem getFields_sorted_permutation (fields : list Field) :
  getFields fields ≡ₚ fields ∧
  Sorted (λ f g, String.le (field_name f) (field_name g)) (getFields fields) ∧
  ∀ (i j : nat) (f g : Field),
    getFields fields !! i = Some f → getFields fields !! j = Some g →
    (i < j)%nat → String.leb (field_name f) (field_name g) = true.
Proof.
  split; [apply sorted_perm|]. split; [apply (sorted_Sorted field_name)|].
  intros i j f g Hi Hj Hij.
  pose proof (sorted_Sorted field_name fields) as Hs.
  apply (Sorted_StronglySorted (key_le field_name)
           (Transitive0:=key_le_trans field_name)) in Hs.
  fold (getFields fields) in Hs.
  revert i j Hi Hj Hij. induction Hs as [|x l _ IH Hall]; intros i j Hi Hj Hij; [done|].
  destruct j as [|j]; [lia|]. destruct i as [|i].
  - simpl in Hi, Hj. injection Hi as ->.
    rewrite Forall_forall in Hall.
    apply Is_true_true, (Hall g). by eapply list_elem_of_lookup_2.
  - simpl in Hi, Hj. apply (IH i j); [done..|lia].
Qed.

(** X2.  With distinct field names, declaring the fields of a record in
    another order changes nothing of what the script derives from them:
    the sorted fields, the embedded types (or the exception raised) and
    the text of the required fields are the same. *)
Theorem declaration_order_irrelevant (n : string) (doc : option string)
    (fields fields' : list Field) :
  fields ≡ₚ fields' → NoDup (field_name <$> fields) →
  getFields fields = getFields fields' ∧
  getEmbeddedTypes (RecordSchema n doc fields) =
    getEmbeddedTypes (RecordSchema n doc fields') ∧
  formatRequiredFields fields = formatRequiredFields fields'.
Proof.
  intros Hperm Hnd.
  assert (getFields fields = getFields fields') as Hsame.
  { by apply sorted_order_independent. }
  split; [done|]. split.
  - simpl. by rewrite Hsame.
  - unfold formatRequiredFields, requiredFieldsOf. by rewrite Hsame.
Qed.

(** ** Names of the usual form *)






(** ** Loading the schemas *)

Lemma mapM_first_error {A B} (f : A → result B) (l1 l2 : list A) (x : A)
    (ys : list B) (e : PyExn) :
  mapM f l1 = Ok ys → f x = Raise e → mapM f (l1 ++ x :: l2) = Raise e.
Proof.
  revert ys. induction l1 as [|a l1 IH]; intros ys; simpl.
  { intros _ ->. done. }
  destruct (f a) as [b|]; simpl; [|done].
  destruct (mapM f l1) as [bs|] eqn:Hl1; simpl; [|done].
  intros _ Hx. by rewrite (IH bs eq_refl Hx).
Qed.

Lemma mapM_all_Ok {A B} (f : A → result B) (l : list A) :
  (∀ x, x ∈ l → ∃ y, f x = Ok y) →
  ∃ ys, mapM f l = Ok ys ∧ Forall2 (λ x y, f x = Ok y) l ys.
Proof.
  induction l as [|x l IH]; intros Hall; simpl.
  { exists []. by split; [|constructor]. }
  destruct (Hall x) as [y Hy]; [left|].
  destruct IH as (ys & Hys & Hall2); [intros; apply Hall; by right|].
  exists (y :: ys). rewrite Hy, Hys. split; [done|]. by constructor.
Qed.

(** X4.  [SchemaGenerator.__init__] stops at the first schema file that
    cannot be loaded, in the order [glob] gave the files, and raises its
    exception: the one of the Avro parser, or [AttributeError] when the
    parsed schema has no name.  The files after it play no part. *)
Theorem SchemaGenerator_init_first_error (ext : Externals)
    (version schemaDir outputFile : string)
    (loaded rest : list (string * string)) (bad : string * string)
    (cs : list SchemaClass) (e : PyExn) :
  mapM (SchemaClass_init ext) loaded = Ok cs →
  (avro_schema_parse ext bad.2 = Raise e ∨
   ∃ sch, avro_schema_parse ext bad.2 = Ok sch ∧
          schema_name sch = Raise e) →
  SchemaGenerator_init ext version schemaDir outputFile (loaded ++ bad :: rest) =
    Raise e.
Proof.
  intros Hloaded Hbad. unfold SchemaGenerator_init.
  rewrite (mapM_first_error _ loaded rest bad cs e Hloaded); [done|].
  unfold SchemaClass_init. destruct Hbad as [->|(sch & -> & Hname)]; [done|].
  simpl. by rewrite Hname.
Qed.

(** ** Classes by name *)

Lemma filter_none {A} (P : A → Prop) `{∀ x, Decision (P x)} (l : list A) :
  (∀ x, x ∈ l → ¬ P x) → filter P l = [].
Proof.
  induction l as [|x l IH]; intros Hall; [done|].
  rewrite filter_cons_False by (apply Hall; left).
  apply IH. intros; apply Hall; by right.
Qed.

Lemma classesByName_foldl (cs : list SchemaClass) (m : gmap string SchemaClass)
    (n : string) :
  foldl (λ m cls, <[name cls := cls]> m) m cs !! n =
    match last (filter (λ c, name c = n) cs) with
    | Some c => Some c
    | None => m !! n
    end.
Proof.
  revert m. induction cs as [|c cs IH]; intros m; simpl; [done|].
  rewrite IH, filter_cons.
  destruct (decide (name c = n)) as [<-|Hne].
  - rewrite last_cons. destruct (last (filter _ cs)); [done|].
    by rewrite lookup_insert_eq.
  - destruct (last (filter _ cs)); [done|]. by rewrite lookup_insert_ne.
Qed.

Lemma classesByName_lookup_last (cs : list SchemaClass) (n : string) :
  classesByName cs !! n = last (filter (λ c, name c = n) cs).
Proof.
  unfold classesByName. rewrite classesByName_foldl, lookup_empty.
  by destruct (last _).
Qed.

Lemma classesByName_sorted_is_Some (cs : list SchemaClass) (n : string) :
  n ∈ sorted id (name <$> cs) → is_Some (classesByName cs !! n).
Proof.
  rewrite elem_of_sorted, list_elem_of_fmap. intros (c & Hn & Hc).
  rewrite classesByName_lookup_last. apply last_is_Some. intros Hnil.
  assert (c ∈ filter (λ c, name c = n) cs) as Hin.
  { by apply list_elem_of_filter. }
  rewrite Hnil in Hin. by apply elem_of_nil in Hin.
Qed.

(** X5.  In [SchemaGenerator.write] the class written under a name is the
    class of that name that was loaded last, and every name of the sorted
    list has a class: the lookup never fails. *)
Theorem classesByName_last (cs : list SchemaClass) (n : string) :
  classesByName cs !! n = last (filter (λ c, name c = n) cs) ∧
  (n ∈ sorted id (name <$> cs) → is_Some (classesByName cs !! n)) ∧
  ∀ (before after : list SchemaClass) (c : SchemaClass),
    cs = before ++ c :: after → name c = n →
    (∀ c', c' ∈ after → name c' ≠ n) →
    classesByName cs !! n = Some c.
Proof.
  split; [apply classesByName_lookup_last|].
  split; [apply classesByName_sorted_is_Some|].
  intros before after c -> Hn Hafter. rewrite classesByName_lookup_last.
  rewrite filter_app, filter_cons_True by done.
  assert (filter (λ c, name c = n) after = []) as ->.
  { apply filter_none. intros c' Hc'. by apply Hafter. }
  by rewrite last_snoc.
Qed.

Lemma filter_singleton_NoDup {A} (key : A → string) (n : string) (l : list A) :
  NoDup (key <$> l) → (length (filter (λ c, key c = n) l) ≤ 1)%nat.
Proof.
  induction l as [|c l IH]; [simpl; lia|].
  rewrite fmap_cons, NoDup_cons. intros [Hnotin Hnd].
  rewrite filter_cons. destruct (decide (key c = n)) as [<-|]; [|by apply IH].
  assert (filter (λ c', key c' = key c) l = []) as ->; [|simpl; lia].
  apply filter_none. intros c' Hc' Heq.
  apply Hnotin. rewrite <-Heq. by apply list_elem_of_fmap_2.
Qed.

Lemma classesByName_Permutation (cs cs' : list SchemaClass) :
  cs ≡ₚ cs' → NoDup (name <$> cs) → classesByName cs = classesByName cs'.
Proof.
  intros Hperm Hnd. apply map_eq. intros n.
  rewrite !classesByName_lookup_last.
  assert (filter (λ c, name c = n) cs ≡ₚ filter (λ c, name c = n) cs') as Hf.
  { by rewrite Hperm. }
  pose proof (filter_singleton_NoDup name n cs Hnd) as Hlen.
  destruct (filter (λ c, name c = n) cs) as [|c [|c' l]]; simpl in Hlen; [| |lia].
  - apply Permutation_nil in Hf. by rewrite Hf.
  - apply Permutation_singleton_l in Hf. by rewrite <-Hf.
Qed.

(** X6.  With distinct class names, the classes are written in ascending
    order of their names and their text does not depend on the order in
    which [glob] gave the schema files. *)
Theorem writeClasses_order_independent (ext : Externals) (sg sg' : SchemaGenerator) :
  classes sg ≡ₚ classes sg' → NoDup (name <$> classes sg) →
  writeClasses ext sg = writeClasses ext sg' ∧
  Sorted String.le (sorted id (name <$> classes sg)).
Proof.
  intros Hperm Hnd. split; [|apply (sorted_Sorted id)].
  unfold writeClasses.
  rewrite (classesByName_Permutation _ _ Hperm Hnd).
  rewrite (sorted_order_independent id (name <$> classes sg) (name <$> classes sg')).
  - done.
  - by rewrite Hperm.
  - by rewrite list_fmap_id.
Qed.

(** ** Runs that succeed *)

Lemma never_raises_bind {A} (m : Writer A) (k : A → Writer ()) :
  (∀ out, ∃ a, (m out).2 = Ok a) → (∀ a, never_raises (k a)) →
  never_raises (m ≫= k).
Proof.
  intros Hm Hk out. unfold mbind, Writer_bind, wbind.
  destruct (Hm out) as [a Ha]. destruct (m out) as [out' [a'|e]]; simpl in *; [|done].
  apply Hk.
Qed.

Lemma never_raises_fwrite (s : string) : never_raises (fwrite s).
Proof. by intros out. Qed.

Lemma never_raises_ret : never_raises (mret ()).
Proof. by intros out. Qed.

Lemma returns_fwrite (s : string) : ∀ out, ∃ a, (fwrite s out).2 = Ok a.
Proof. intros out. by exists (). Qed.

Lemma returns_never_raises (w : Writer ()) :
  never_raises w → ∀ out, ∃ a, (w out).2 = Ok a.
Proof. intros Hw out. exists (). apply Hw. Qed.

Lemma returns_wlift {A} (a : A) : ∀ out, ∃ a', (wlift (Ok a) out).2 = Ok a'.
Proof. intros out. by exists a. Qed.

Lemma never_raises_wforeach {A} (f : A → Writer ()) (l : list A) :
  (∀ x, x ∈ l → never_raises (f x)) → never_raises (wforeach f l).
Proof.
  induction l as [|x l IH]; intros Hf; simpl; [apply never_raises_ret|].
  apply never_raises_bind.
  - apply returns_never_raises, Hf. left.
  - intros _. apply IH. intros; apply Hf; by right.
Qed.

Lemma never_raises_if (b : bool) (w1 w2 : Writer ()) :
  never_raises w1 → never_raises w2 → never_raises (if b then w1 else w2).
Proof. by destruct b. Qed.

Lemma returns_wret {A} (a : A) : ∀ out, ∃ a', (wret a out).2 = Ok a'.
Proof. intros out. by exists a. Qed.

Lemma returns_if {A} (b : bool) (w1 w2 : Writer A) :
  (∀ out, ∃ a, (w1 out).2 = Ok a) → (∀ out, ∃ a, (w2 out).2 = Ok a) →
  ∀ out, ∃ a, ((if b then w1 else w2) out).2 = Ok a.
Proof. by destruct b. Qed.

Ltac never_raises_steps :=
  repeat first
    [ apply never_raises_fwrite | apply never_raises_ret
    | apply never_raises_if
    | apply never_raises_wforeach; intros ? ?
    | apply never_raises_bind;
        [first [apply returns_fwrite | apply returns_wlift | apply returns_wret
               | apply returns_if; [apply returns_wret|apply returns_wlift]
               | apply returns_never_raises]
        |intros ?] ].

Lemma never_raises_writePostSignatures (total i : nat)
    (sigs : list (string * string * string)) :
  never_raises (writePostSignatures total i sigs).
Proof.
  revert i. induction sigs as [|[[url request] response] sigs IH]; intros i; simpl.
  { apply never_raises_ret. }
  never_raises_steps. apply IH.
Qed.

Lemma writable_getEmbeddedTypes (ext : Externals) (source n : string)
    (doc : option string) (fs : list Field) :
  writable ext source (RecordSchema n doc fs) = true →
  (fmt ext (json_strip_docs ext source)).1 = 0 ∧
  getEmbeddedTypes (RecordSchema n doc fs) = Ok (embedded_pairs fs).
Proof.
  simpl. intros [Hfmt Hall]%andb_prop. apply bool_decide_eq_true in Hfmt.
  split; [done|]. rewrite embeddedTypesLoop_ok; [done|].
  intros f Hf. rewrite elem_of_getFields in Hf.
  rewrite forallb_forall in Hall. apply list_elem_of_In, Hall in Hf.
  apply andb_prop in Hf as [?%negb_true_iff ?%negb_true_iff]. done.
Qed.

Lemma never_raises_SchemaClass_write (ext : Externals) (cls : SchemaClass) :
  writable ext (schemaSource cls) (schema cls) = true →
  never_raises (SchemaClass_write ext cls).
Proof.
  intros Hw. unfold SchemaClass_write.
  destruct (schema cls) as [| |n d symbols| | | |n d fs] eqn:Hsch; try done.
  - simpl. never_raises_steps.
  - apply writable_getEmbeddedTypes in Hw as [Hfmt Het].
    unfold formatSchema, writeEmbeddedTypesClassMethods, writeConstructor.
    destruct (fmt ext (json_strip_docs ext (schemaSource cls))) as [status output].
    simpl in Hfmt. subst status. rewrite Het. simpl.
    never_raises_steps.
Qed.

Lemma SchemaClass_init_Ok (ext : Externals) (file : string * string) (cls : SchemaClass) :
  SchemaClass_init ext file = Ok cls →
  schemaSource cls = file.2 ∧ avro_schema_parse ext file.2 = Ok (schema cls).
Proof.
  unfold SchemaClass_init.
  destruct (avro_schema_parse ext file.2) as [sch|]; simpl; [|done].
  destruct (schema_name sch); simpl; [|done]. by intros [= <-].
Qed.

(** X8.  When every schema file parses to an enum or to a record whose
    source [fmt] accepts and whose unions have two branches or more with
    null first, the run returns without error and the output file holds
    the text of the whole module. *)
Theorem generate_succeeds (ext : Externals) (version schemaDir out : string)
    (avscFiles : list (string * string)) (fs : FileSystem) :
  (∀ file, file ∈ avscFiles →
     ∃ sch, avro_schema_parse ext file.2 = Ok sch ∧
            writable ext file.2 sch = true) →
  ∃ sg text,
    SchemaGenerator_init ext version schemaDir out avscFiles = Ok sg ∧
    writeBody ext sg "" = (text, Ok ()) ∧
    generate ext version schemaDir out avscFiles fs = (<[out := text]> fs, Ok ()).
Proof.
  intros Hfiles.
  destruct (mapM_all_Ok (SchemaClass_init ext) avscFiles) as (cs & Hload & Hall).
  { intros file Hfile. destruct (Hfiles file Hfile) as (sch & Hparse & Hw).
    unfold SchemaClass_init. rewrite Hparse. simpl.
    destruct sch; try done; by eexists. }
  destruct (SchemaGenerator_init_returns ext version schemaDir out avscFiles cs Hload)
    as (sg & Hsg & Hclasses).
  assert (never_raises (writeBody ext sg)) as Hbody.
  { unfold writeBody, writeHeader. never_raises_steps.
    - destruct (classesByName (classes sg) !! _) as [cls|] eqn:Hcls.
      + apply never_raises_SchemaClass_write.
        apply classesByName_lookup in Hcls as [Hin _]. rewrite Hclasses in Hin.
        apply list_elem_of_lookup in Hin as [i Hi].
        destruct (Forall2_lookup_r _ _ _ _ _ Hall Hi) as (file & Hfile & Hinit).
        apply SchemaClass_init_Ok in Hinit as [-> Hparse].
        destruct (Hfiles file) as (sch & Hparse' & Hw);
          [by eapply list_elem_of_lookup_2|].
        congruence.
      + exfalso.
        match goal with
        | Hn : ?n ∈ sorted id _ |- _ =>
            destruct (classesByName_sorted_is_Some (classes sg) n Hn) as [? ?];
            congruence
        end.
    - apply never_raises_writePostSignatures. }
  exists sg, (writeBody ext sg "").1. split; [done|].
  specialize (Hbody ""). split.
  - destruct (writeBody ext sg "") as [text r]. simpl in *. by subst.
  - unfold generate, SchemaGenerator_write. rewrite Hsg.
    rewrite (SchemaGenerator_init_outputFile _ _ _ _ _ _ Hsg).
    destruct (writeBody ext sg "") as [text r]. simpl in *. by subst.
Qed.

(** ** The end of the module: [postMethods] *)

Lemma writePostSignatures_run (total i : nat) (sigs : list (string * string * string))
    (out : string) :
  ∃ s, writePostSignatures total i sigs out = (out +:+ s, Ok ()) ∧
       (sigs = [] → s = "") ∧
       (sigs ≠ [] → (i + length sigs)%nat = total → ∃ s', s = s' +:+ ")]" +:+ nl).
Proof.
  revert i out. induction sigs as [|[[url request] response] sigs IH]; intros i out.
  { exists "". simpl. rewrite append_nil_r. by repeat split. }
  set (opening := if bool_decide (i ≠ 0%nat) then "     ('" else "").
  set (closing := if bool_decide (i = (total - 1)%nat) then "]" +:+ nl else "," +:+ nl).
  set (entry := opening +:+ url +:+ ("'," +:+ nl +:+ "      ") +:+ request +:+
                (("," +:+ nl +:+ "      ") +:+ response +:+ ")" +:+ closing)).
  destruct (IH (S i) (out +:+ entry)) as (s & Hrun & Hnil & Hlast).
  exists (entry +:+ s). split; [|split; [done|]].
  - assert (∀ x, x = out +:+ entry →
              writePostSignatures total (S i) sigs x = (out +:+ entry +:+ s, Ok ()))
      as Hstep.
    { intros x ->. by rewrite Hrun, append_assoc. }
    cbn [writePostSignatures]. unfold mbind, Writer_bind, wbind, fwrite, wret.
    subst entry opening closing.
    destruct (bool_decide (i ≠ 0%nat)), (bool_decide (i = (total - 1)%nat));
      cbn beta iota; apply Hstep; rewrite ?append_assoc; reflexivity.
  - intros _ Htotal. destruct sigs as [|sig sigs].
    + rewrite (Hnil eq_refl), append_nil_r. unfold entry, closing.
      rewrite bool_decide_eq_true_2 by (simpl in Htotal; lia).
      exists (opening +:+ url +:+ ("'," +:+ nl +:+ "      ") +:+ request +:+
              ("," +:+ nl +:+ "      ") +:+ response).
      rewrite !append_assoc. reflexivity.
    + destruct Hlast as [s' ->]; [done|simpl in *; lia|].
      exists (entry +:+ s'). by rewrite append_assoc.
Qed.

Lemma writeBody_unfold (ext : Externals) (sg : SchemaGenerator) :
  writeBody ext sg =
    (writeHeader sg;; writeClasses ext sg;;
     fwrite (nl +:+ "postMethods = " +:+ backslash +:+ nl +:+ "    [('");;
     writePostSignatures (length (postSignatures sg)) 0 (postSignatures sg)).
Proof. reflexivity. Qed.

(** X7.  A module written without error ends with the [postMethods]
    list.  With one route tuple or more the text ends with the closing of
    the last tuple and of the list; without any, the list is left open:
    the text ends with its opening bracket, parenthesis and quote. *)
Theorem postMethods_text (ext : Externals) (sg : SchemaGenerator) (text : string) :
  writeBody ext sg "" = (text, Ok ()) →
  ∃ before tuples,
    text = before +:+ (nl +:+ "postMethods = " +:+ backslash +:+ nl +:+ "    [('") +:+ tuples ∧
    (postSignatures sg = [] → tuples = "") ∧
    (postSignatures sg ≠ [] → ∃ tuples', tuples = tuples' +:+ ")]" +:+ nl).
Proof.
  rewrite writeBody_unfold. unfold mbind, Writer_bind, wbind.
  destruct (writeHeader sg "") as [o1 [[]|]]; [|done].
  destruct (writeClasses ext sg o1) as [o2 [[]|]]; [|done].
  cbn [fwrite].
  destruct (writePostSignatures_run (length (postSignatures sg)) 0 (postSignatures sg)
              (o2 +:+ (nl +:+ "postMethods = " +:+ backslash +:+ nl +:+ "    [('")))
    as (s & -> & Hnil & Hlast).
  intros [= <-]. exists o2, s. rewrite append_assoc. split; [done|].
  split; [done|]. intros Hne. by apply Hlast.
Qed.

(** ** The files a run touches *)


(** ** A failure of [fmt] *)

(** X12.  When [fmt] ends with a status other than zero on the source of
    a record class, [SchemaClass.write] raises the exception that names
    the status, after it has written the class line and the docstring
    and nothing else of the class. *)
Theorem SchemaClass_write_fmt_failure (ext : Externals) (cls : SchemaClass)
    (n : string) (doc : option string) (fs : list Field)
    (status : Z) (output out : string) :
  schema cls = RecordSchema n doc fs →
  fmt ext (json_strip_docs ext (schemaSource cls)) = (status, output) →
  status ≠ 0 →
  SchemaClass_write ext cls out =
    (out +:+
       (nl +:+ nl +:+ "class " +:+ n +:+ "(ProtocolElement):" +:+ nl) +:+
       ("    " +:+ triple_quote +:+ nl +:+ default "No documentation" doc +:+ nl +:+
        "    " +:+ triple_quote +:+ nl),
     Raise (Exception ("Error occured running fmt: " +:+ pretty status +:+ ": None"))).
Proof.
  intros Hsch Hfmt Hstatus. unfold SchemaClass_write, formatSchema.
  rewrite Hsch, Hfmt. rewrite bool_decide_eq_true_2 by done.
  unfold mbind, Writer_bind, wbind, wlift, print, fwrite. cbn [schema_name schema_doc].
  cbn beta iota. f_equal. rewrite !append_assoc. reflexivity.
Qed.

(** ** The emitted [embeddedTypes] dictionary *)

Lemma read_entries_in_key (k buf rest : string) (acc : list (string * string)) :
  plain_key k = true →
  read_entries (DInKey buf) acc (k +:+ String "'"%char rest) =
  read_entries (DColon (buf +:+ k)) acc rest.
Proof.
  revert buf. induction k as [|c k IH]; intros buf Hplain; simpl.
  { by rewrite append_nil_r. }
  simpl in Hplain.
  destruct (Ascii.eqb c "'"%char); [done|].
  destruct (Ascii.eqb c "092"%char); [done|].
  destruct (Ascii.eqb c "010"%char); [done|]. simpl in *.
  rewrite IH by done. by rewrite append_assoc.
Qed.

Lemma read_entries_in_value (v key buf rest : string) (acc : list (string * string)) :
  all_ident_chars v = true →
  read_entries (DInValue key buf) acc (v +:+ String ","%char rest) =
  read_entries DKey (acc ++ [(key, buf +:+ v)]) rest.
Proof.
  revert buf. induction v as [|c v IH]; intros buf Hident; simpl.
  { by rewrite append_nil_r. }
  simpl in Hident. apply andb_prop in Hident as [Hc Hv]. rewrite Hc.
  rewrite IH by done. by rewrite append_assoc.
Qed.

(** One entry of the dictionary, on its line. *)
Lemma read_entries_line (k v rest : string) (acc : list (string * string)) :
  plain_key k = true → is_identifier v = true →
  read_entries DKey acc
    ((spaces 12 +:+ ("'" +:+ k +:+ "': " +:+ v +:+ "," +:+ nl)) +:+ rest) =
  read_entries DKey (acc ++ [(k, v)]) rest.
Proof.
  intros Hk Hv. destruct v as [|c v]; [done|].
  simpl in Hv. apply andb_prop in Hv as [Hc Hv].
  unfold nl. rewrite !append_assoc. simpl.
  rewrite read_entries_in_key by done. simpl.
  assert (is_space c = false) as ->.
  { destruct (is_space c) eqn:Hsp; [|done].
    unfold is_space in Hsp. apply orb_prop in Hsp as [->%Ascii.eqb_eq| ->%Ascii.eqb_eq];
      done. }
  rewrite Hc. rewrite read_entries_in_value by done. done.
Qed.

Lemma read_entries_lines (et : list (string * string)) (rest : string)
    (acc : list (string * string)) :
  Forall (λ p, plain_key p.1 = true ∧ is_identifier p.2 = true) et →
  read_entries DKey acc
    (foldr (λ p r, (spaces 12 +:+ ("'" +:+ p.1 +:+ "': " +:+ p.2 +:+ "," +:+ nl)) +:+ r)
           "" et +:+ rest) =
  read_entries DKey (acc ++ et) rest.
Proof.
  intros Hall. revert acc. induction Hall as [|[k v] et [Hk Hv] _ IH]; intros acc;
    cbn [foldr].
  { by rewrite app_nil_r. }
  rewrite append_assoc. cbn [fst snd]. rewrite read_entries_line by done.
  rewrite IH. by rewrite <-app_assoc.
Qed.

Lemma eval_embeddedTypesString (et : list (string * string)) :
  Forall (λ p, plain_key p.1 = true ∧ is_identifier p.2 = true) et →
  eval_dict_literal (embeddedTypesString et) = Some et.
Proof.
  intros Hall. unfold embeddedTypesString. destruct et as [|p et]; [done|].
  rewrite bool_decide_eq_false_2 by done. cbv zeta.
  rewrite (foldl_append
    (λ p, spaces 12 +:+ ("'" +:+ p.1 +:+ "': " +:+ p.2 +:+ "," +:+ nl))).
  unfold eval_dict_literal.
  rewrite !append_assoc.
  change (strip_prefix _ (spaces 8 +:+ "embeddedTypes = {" +:+ nl +:+ ?x))
    with (Some (nl +:+ x)).
  pose proof (read_entries_lines (p :: et) (spaces 8 +:+ "}") [] Hall) as Hread.
  unfold nl at 1. simpl String.append at 1.
  cbv beta iota delta [read_entries is_space]. simpl Ascii.eqb. cbv iota. simpl orb.
  cbv iota. fold read_entries.
  etrans; [apply Hread|]. done.
Qed.

(** X10.  When the embedded types of a class can be extracted, with field
    names that can stand between single quotes and type names that are
    Python names, the two generated class methods carry the same
    dictionary display, and it evaluates to exactly the extracted pairs:
    each embedded field name with the name of its type. *)
Theorem embeddedTypes_literal (sch : Schema) (et : list (string * string)) (out : string) :
  getEmbeddedTypes sch = Ok et →
  Forall (λ p, plain_key p.1 = true ∧ is_identifier p.2 = true) et →
  eval_dict_literal (embeddedTypesString et) = Some et ∧
  writeEmbeddedTypesClassMethods sch out =
    (out +:+
       embeddedTypesMethod "    def isEmbeddedType(cls, fieldName):"
         (embeddedTypesString et) "return fieldName in embeddedTypes" +:+
       embeddedTypesMethod "    def getEmbeddedType(cls, fieldName):"
         (embeddedTypesString et) "return embeddedTypes[fieldName]",
     Ok ()).
Proof.
  intros Het Hall. split; [by apply eval_embeddedTypesString|].
  unfold writeEmbeddedTypesClassMethods. rewrite Het.
  unfold mbind, Writer_bind, wbind, wlift, wret, print, fwrite.
  destruct (bool_decide (length et = 0%nat)); cbn beta iota;
    unfold embeddedTypesMethod; f_equal; rewrite !append_assoc; reflexivity.
Qed.

(** ** [testCodeInvariants], the other way round *)

(** X13.  [testCodeInvariants] passes on every module whose classes all
    have a code other than [None] and pairwise different codes; and it
    fails on a module in which some class has the code [None]. *)
Theorem testCodeInvariants_accepts (classes : list ExceptionClass) :
  ((∀ c, c ∈ classes → test_exceptions.getErrorCode c ≠ None) →
   NoDup (test_exceptions.getErrorCode <$> classes) →
   testCodeInvariants classes = test_exceptions.Passed) ∧
  ((∃ c, c ∈ classes ∧ test_exceptions.getErrorCode c = None) →
   testCodeInvariants classes = AssertionError) ∧
  (¬ NoDup (test_exceptions.getErrorCode <$> classes) →
   testCodeInvariants classes = AssertionError).
Proof.
  split; [|split].
  - intros Hall Hnd. by apply testCodeInvariants_Passed.
  - intros (c & Hc & Hnone).
    destruct (testCodeInvariants classes) eqn:Htest; [|done].
    apply testCodeInvariants_Passed in Htest as [Hall _].
    by destruct (Hall c Hc).
  - intros Hdup.
    destruct (testCodeInvariants classes) eqn:Htest; [|done].
    by apply testCodeInvariants_Passed in Htest as [_ Hnd].
Qed.

(** ** The configurations compared *)


(** ** [assertLogsWritten] *)

Lemma contains_iff (sub s : string) :
  contains sub s = true ↔ ∃ a b, s = a +:+ sub +:+ b.
Proof.
  split.
  - induction s as [|c s IH]; simpl.
    + destruct (strip_prefix sub "") as [r|] eqn:Hr; [|done].
      intros _. apply strip_prefix_Some in Hr. by exists "", r.
    + destruct (strip_prefix sub (String c s)) as [r|] eqn:Hr.
      * intros _. apply strip_prefix_Some in Hr. by exists "", r.
      * intros (a & b & ->)%IH. by exists (String c a), b.
  - intros (a & b & ->). induction a as [|c a IH].
    + change ("" +:+ sub +:+ b) with (sub +:+ b).
      destruct (sub +:+ b) eqn:Hs; simpl; rewrite <-Hs; by rewrite strip_prefix_app.
    + change (String c a +:+ ?r) with (String c (a +:+ r)). cbn [contains].
      destruct (strip_prefix sub (String c _)); [done|]. apply IH.
Qed.

Lemma found_in_iff (sub : string) (lines : list string) :
  test_gestalt.found_in sub lines = true ↔
  ∃ line, line ∈ lines ∧ ∃ a b, line = a +:+ sub +:+ b.
Proof.
  induction lines as [|line lines IH]; simpl.
  { split; [done|]. by intros (? & ?%elem_of_nil & _). }
  destruct (contains sub line) eqn:Hline.
  - split; [|done]. intros _. exists line. split; [left|]. by apply contains_iff.
  - rewrite IH. split.
    + intros (l & Hl & Hsub). exists l. split; [by right|done].
    + intros (l & [->|Hl]%elem_of_cons & Hsub).
      * apply contains_iff in Hsub. congruence.
      * by exists l.
Qed.

(** X15.  [assertLogsWritten] passes exactly when the server wrote
    nothing to its standard output, some line of its standard error has
    [ 200 ] in it, the client wrote twenty lines to its standard output
    and some line of its standard error has [POST] in it.  The check that
    the client output is not empty decides nothing but the message: with
    an empty output it is the one reported, not the count. *)
Theorem assertLogsWritten_passes
    (serverOutLines serverErrLines clientOutLines clientErrLines : list string) :
  (test_gestalt.assertLogsWritten serverOutLines serverErrLines
     clientOutLines clientErrLines = test_gestalt.Passed ↔
   serverOutLines = [] ∧
   (∃ line, line ∈ serverErrLines ∧ ∃ a b, line = a +:+ " 200 " +:+ b) ∧
   length clientOutLines = 20%nat ∧
   (∃ line, line ∈ clientErrLines ∧ ∃ a b, line = a +:+ "POST" +:+ b)) ∧
  (serverOutLines = [] →
   (∃ line, line ∈ serverErrLines ∧ ∃ a b, line = a +:+ " 200 " +:+ b) →
   clientOutLines = [] →
   test_gestalt.assertLogsWritten serverOutLines serverErrLines
     clientOutLines clientErrLines = test_gestalt.Failed "Client stdout log is empty").
Proof.
  unfold test_gestalt.assertLogsWritten. split.
  - rewrite <-!found_in_iff.
    case_bool_decide as Hso; simpl; [|by split; [|intros [? _]]].
    destruct (test_gestalt.found_in " 200 " serverErrLines); simpl;
      [|by split; [|intros (_ & ? & _)]].
    case_bool_decide as Hco; simpl.
    { split; [done|]. intros (_ & _ & Hlen & _). by rewrite Hco in Hlen. }
    destruct (length clientOutLines =? 20)%nat eqn:Hlen; simpl.
    + apply Nat.eqb_eq in Hlen.
      destruct (test_gestalt.found_in "POST" clientErrLines); simpl; [done|].
      by split; [|intros (_ & _ & _ & ?)].
    + apply Nat.eqb_neq in Hlen. by split; [|intros (_ & _ & ? & _)].
  - intros -> Hse%found_in_iff ->. by rewrite Hse.
Qed.

(** ** Downloads *)

Lemma iter_content_run (verbosity : Z) (blocks : download.Stream) (written out : string) :
  download.iter_content verbosity blocks written out =
    (written +:+ foldr String.append "" (download.blocks_of blocks),
     if bool_decide (verbosity > 1)
     then out +:+ foldr (λ _ r, "." +:+ r) "" (download.blocks_of blocks)
     else out,
     if download.complete blocks then None else Some download.ChunkedEncodingError).
Proof.
  revert written out. induction blocks as [|block rest IH|]; intros written out; simpl.
  - rewrite !append_nil_r. by case_bool_decide.
  - rewrite IH. destruct block as [|c block]; case_bool_decide; simpl;
      rewrite ?append_assoc; reflexivity.
  - rewrite !append_nil_r. by case_bool_decide.
Qed.

(** X16.  After [download] the destination file holds the blocks that
    arrived, end to end, and nothing of what it held before: all of the
    content when the download ends well, the blocks before the break when
    the connection breaks, and nothing when the request fails or the
    status is an error.  No other file changes, and none of this depends
    on the verbosity. *)
Theorem download_files (requests_get : string → download.GetResult) (verbosity : Z)
    (url destination : string) (w : download.World) :
  let received :=
    match requests_get url with
    | download.Content blocks => foldr String.append "" (download.blocks_of blocks)
    | _ => ""
    end in
  download.files (download.download requests_get verbosity url destination w).1 =
    <[destination := received]> (download.files w) ∧
  (download.download requests_get verbosity url destination w).2 =
    match requests_get url with
    | download.RequestFails => Some download.RequestException
    | download.ErrorStatus => Some download.HTTPError
    | download.Content blocks =>
        if download.complete blocks then None
        else Some download.ChunkedEncodingError
    end.
Proof.
  unfold download.download. destruct (requests_get url) as [| |blocks]; try done.
  rewrite iter_content_run. by destruct (download.complete blocks).
Qed.


(** ** What extraction returns, when it returns *)

Lemma embeddedTypeOfField_Ok_inv (f : Field) (new : list (string * string)) :
  embeddedTypeOfField f = Ok new →
  new = option_list ((λ n, (field_name f, n)) <$> embedded_type (field_type f)) ∧
  short_union (field_type f) = false ∧
  first_branch_not_null (field_type f) = false.
Proof.
  unfold embeddedTypeOfField.
  destruct (field_type f) as [p| | |items| |schemas|n d fs]; simpl;
    try (by intros [= <-]).
  - destruct items; by intros [= <-].
  - destruct schemas as [|t0 [|t1 rest]]; simpl; try done.
    destruct (is_null t0) eqn:Hnull; [|done].
    destruct t0 as [[]| | | | | |]; simpl in Hnull; try done.
    destruct t1; by intros [= <-].
Qed.

Lemma embeddedTypesLoop_Ok_inv (l : list Field) (ret et : list (string * string)) :
  embeddedTypesLoop l ret = Ok et →
  et = ret ++ omap (λ f, (λ n, (field_name f, n)) <$> embedded_type (field_type f)) l ∧
  ∀ f, f ∈ l → short_union (field_type f) = false ∧
                first_branch_not_null (field_type f) = false.
Proof.
  revert ret. induction l as [|f l IH]; intros ret; simpl.
  { intros [= <-]. rewrite app_nil_r. split; [done|]. by intros ? ?%elem_of_nil. }
  destruct (embeddedTypeOfField f) as [new|] eqn:Hf; simpl; [|done].
  apply embeddedTypeOfField_Ok_inv in Hf as (-> & Hs & Hn).
  intros [-> Hall]%IH. split.
  - rewrite <-app_assoc. f_equal. by destruct (embedded_type (field_type f)).
  - intros g [->|Hg]%elem_of_cons; [done|by apply Hall].
Qed.

Lemma length_omap_le {A B} (g : A → option B) (l : list A) :
  (length (omap g l) ≤ length l)%nat.
Proof.
  induction l as [|x l IH]; [done|]. cbn [omap list_omap].
  destruct (g x); simpl; lia.
Qed.

Lemma omap_keys_NoDup (l : list Field) :
  NoDup (field_name <$> l) →
  NoDup (omap (λ f, (λ n, (field_name f, n)) <$> embedded_type (field_type f)) l).*1.
Proof.
  induction l as [|f l IH]; [constructor|].
  rewrite fmap_cons, NoDup_cons. intros [Hnotin Hnd]. cbn [omap list_omap].
  destruct (embedded_type (field_type f)) as [n|]; simpl; [|by apply IH].
  apply NoDup_cons. split; [|by apply IH].
  intros ([k v] & Hk & (g & Hg & Hemb)%list_elem_of_omap)%list_elem_of_fmap.
  simpl in Hk. apply Hnotin.
  destruct (embedded_type (field_type g)); simplify_eq/=.
  match goal with H : field_name g = field_name f |- _ => rewrite <-H end.
  by apply list_elem_of_fmap_2.
Qed.

(** X11.  Whenever [getEmbeddedTypes] returns on a record schema, no
    union field of the schema has fewer than two branches or a first
    branch other than null, and the list returned holds, in the order of
    the field names, one pair for each field that is a record, an array
    of records or a union with null first and a record second, and
    nothing else; with distinct field names no field name occurs twice
    in it. *)
Theorem getEmbeddedTypes_returns (n : string) (doc : option string)
    (fields : list Field) (et : list (string * string)) :
  getEmbeddedTypes (RecordSchema n doc fields) = Ok et →
  et = embedded_pairs fields ∧
  (∀ f, f ∈ fields → short_union (field_type f) = false ∧
                     first_branch_not_null (field_type f) = false) ∧
  (length et ≤ length fields)%nat ∧
  (NoDup (field_name <$> fields) → NoDup et.*1).
Proof.
  simpl. intros [-> Hall]%embeddedTypesLoop_Ok_inv. simpl.
  split; [done|]. split; [|split].
  - intros f Hf. apply Hall. by rewrite elem_of_getFields.
  - etrans; [apply length_omap_le|]. unfold getFields. by rewrite sorted_perm.
  - intros Hnd. apply omap_keys_NoDup. unfold getFields.
    by rewrite sorted_perm.
Qed.

(** ** Enum classes *)

Lemma wforeach_print {A} (g : A → string) (l : list A) (out : string) :
  wforeach (λ x, print (g x)) l out =
    (out +:+ foldr (λ x r, g x +:+ nl +:+ r) "" l, Ok ()).
Proof.
  revert out. induction l as [|x l IH]; intros out; simpl.
  { by rewrite append_nil_r. }
  unfold mbind, Writer_bind, wbind, print, fwrite. cbn beta iota.
  change (wforeach (λ x, fwrite (g x +:+ nl)) l) with (wforeach (λ x, print (g x)) l).
  rewrite IH. by rewrite !append_assoc.
Qed.

(** X18.  An enum class is always written, without any use of the
    externals: the class line with [object] as its base, the docstring,
    and for each symbol, in the order of the declaration, one line that
    gives the constant of that name the symbol as its value. *)
Theorem SchemaClass_write_enum (ext : Externals) (cls : SchemaClass)
    (n : string) (doc : option string) (symbols : list string) (out : string) :
  schema cls = EnumSchema n doc symbols →
  SchemaClass_write ext cls out =
    (out +:+
       (nl +:+ nl +:+ "class " +:+ n +:+ "(object):" +:+ nl) +:+
       ("    " +:+ triple_quote +:+ nl +:+ default "No documentation" doc +:+ nl +:+
        "    " +:+ triple_quote +:+ nl) +:+
       foldr (λ symbol r,
                ("    " +:+ symbol +:+ " = " +:+ dquote +:+ symbol +:+ dquote) +:+ nl +:+ r)
             "" symbols,
     Ok ()).
Proof.
  intros Hsch. unfold SchemaClass_write. rewrite Hsch.
  unfold mbind at 1 2 3 4, Writer_bind, wbind, wlift, print at 1 2, fwrite.
  cbn [schema_name schema_doc]. cbn beta iota.
  rewrite wforeach_print. f_equal. rewrite !append_assoc. reflexivity.
Qed.

(** ** The further properties on the example data *)

Lemma getFields_sorted_permutation_witness :
  String.leb "alignedQuality" "id" = true.
Proof.
  destruct (getFields_sorted_permutation examples.ReadAlignment_fields)
    as (_ & _ & Hordered).
  exact (Hordered 0%nat 1%nat
           (mkField "alignedQuality" (ArraySchema (PrimitiveSchema int)) true)
           (mkField "id" (UnionSchema [PrimitiveSchema null; PrimitiveSchema string_]) false)
           eq_refl eq_refl ltac:(lia)).
Defined.

Lemma declaration_order_irrelevant_witness :
  getEmbeddedTypes (RecordSchema "Variant" None more_examples.Variant_fields) =
  getEmbeddedTypes (RecordSchema "Variant" None (reverse more_examples.Variant_fields)).
Proof.
  apply (declaration_order_irrelevant "Variant" None more_examples.Variant_fields
           (reverse more_examples.Variant_fields)).
  - symmetry. apply reverse_Permutation.
  - apply (bool_decide_unpack (NoDup _)). by vm_compute.
Defined.


Lemma SchemaGenerator_init_first_error_witness :
  SchemaGenerator_init examples.externals "v0.5.1" "schemas" "out.py"
    ([("Variant.avsc", "Variant")] ++ ("Call.avsc", "malformed") :: [("Read.avsc", "Read")]) =
    Raise (SchemaParseException "No JSON object could be decoded").
Proof.
  apply (SchemaGenerator_init_first_error examples.externals "v0.5.1" "schemas" "out.py"
           [("Variant.avsc", "Variant")] [("Read.avsc", "Read")] ("Call.avsc", "malformed")
           [mkSchemaClass "Variant.avsc" "Variant" (RecordSchema "Variant" None []) "Variant"]).
  - reflexivity.
  - left. reflexivity.
Defined.

Lemma classesByName_last_witness :
  classesByName
    [more_examples.Variant_class; more_examples.Strand_class;
     mkSchemaClass "Variant2.avsc" "Variant" (RecordSchema "Variant" None []) "Variant"]
    !! "Variant" =
  Some (mkSchemaClass "Variant2.avsc" "Variant" (RecordSchema "Variant" None []) "Variant").
Proof.
  destruct (classesByName_last
              [more_examples.Variant_class; more_examples.Strand_class;
               mkSchemaClass "Variant2.avsc" "Variant" (RecordSchema "Variant" None [])
                 "Variant"] "Variant") as (_ & _ & Hlast).
  apply (Hlast [more_examples.Variant_class; more_examples.Strand_class] []);
    [reflexivity|reflexivity|].
  intros c Hc. by apply elem_of_nil in Hc.
Defined.

Lemma writeClasses_order_independent_witness :
  writeClasses examples.externals more_examples.generator_1 =
  writeClasses examples.externals more_examples.generator_2.
Proof.
  apply (writeClasses_order_independent examples.externals
           more_examples.generator_1 more_examples.generator_2).
  - apply Permutation_swap.
  - apply (bool_decide_unpack (NoDup _)). by vm_compute.
Defined.

Lemma postMethods_text_witness :
  ∃ before,
    (writeBody examples.externals more_examples.empty_generator "").1 =
      before +:+ (nl +:+ "postMethods = " +:+ backslash +:+ nl +:+ "    [('").
Proof.
  destruct (postMethods_text examples.externals more_examples.empty_generator
              (writeBody examples.externals more_examples.empty_generator "").1)
    as (before & tuples & Htext & Hnil & _).
  { by vm_compute. }
  exists before. rewrite Htext, (Hnil eq_refl). by rewrite append_nil_r.
Defined.

Lemma generate_succeeds_witness :
  ∃ text,
    generate examples.externals "v0.5.1" "schemas" "out.py" examples.search_files ∅ =
      (<["out.py" := text]> ∅, Ok ()).
Proof.
  destruct (generate_succeeds examples.externals "v0.5.1" "schemas" "out.py"
              examples.search_files ∅) as (sg & text & _ & _ & Hrun).
  { intros file Hfile.
    repeat (apply elem_of_cons in Hfile as [->|Hfile];
            [eexists; split; [reflexivity|by vm_compute]|]).
    by apply elem_of_nil in Hfile. }
  by exists text.
Defined.


Lemma embeddedTypes_literal_witness :
  eval_dict_literal
    (embeddedTypesString
       [("nextMatePosition", "Position"); ("origin", "Position");
        ("positions", "Position")]) =
  Some [("nextMatePosition", "Position"); ("origin", "Position");
        ("positions", "Position")].
Proof.
  apply (embeddedTypes_literal
           (RecordSchema "ReadAlignment" None examples.ReadAlignment_fields) _ "").
  - by vm_compute.
  - repeat constructor.
Defined.

Lemma getEmbeddedTypes_returns_witness :
  NoDup [("nextMatePosition", "Position"); ("origin", "Position");
         ("positions", "Position")].*1.
Proof.
  apply (getEmbeddedTypes_returns "ReadAlignment" None examples.ReadAlignment_fields).
  - by vm_compute.
  - apply (bool_decide_unpack (NoDup _)). by vm_compute.
Defined.

Lemma SchemaClass_write_fmt_failure_witness :
  (SchemaClass_write more_examples.failing_fmt more_examples.Variant_class "").2 =
    Raise (Exception "Error occured running fmt: 1: None").
Proof.
  by rewrite (SchemaClass_write_fmt_failure more_examples.failing_fmt
                more_examples.Variant_class "Variant" (Some "A variant.")
                more_examples.Variant_fields 1 "" "" eq_refl eq_refl ltac:(done)).
Defined.

Lemma SchemaClass_write_enum_witness :
  (SchemaClass_write more_examples.failing_fmt more_examples.Strand_class "").2 = Ok ().
Proof.
  by rewrite (SchemaClass_write_enum more_examples.failing_fmt more_examples.Strand_class
                "Strand" None ["POS_STRAND"; "NEG_STRAND"] "" eq_refl).
Defined.

Lemma testCodeInvariants_accepts_witness :
  testCodeInvariants examples.exception_classes = test_exceptions.Passed.
Proof.
  destruct (testCodeInvariants_accepts examples.exception_classes) as [Haccepts _].
  apply Haccepts.
  - intros c Hc. unfold examples.exception_classes, classes_of in Hc.
    apply list_elem_of_fmap in Hc as (k & -> & _). done.
  - apply (bool_decide_unpack (NoDup _)). by vm_compute.
Defined.


Lemma assertLogsWritten_passes_witness :
  test_gestalt.assertLogsWritten [] more_examples.server_err [] more_examples.client_err =
    test_gestalt.Failed "Client stdout log is empty".
Proof.
  destruct (assertLogsWritten_passes [] more_examples.server_err []
              more_examples.client_err) as [_ Hempty].
  apply Hempty; [done| |done].
  eexists. split; [left|].
  by exists "127.0.0.1 - - [03/Feb/2015 12:00:00] POST /variants/search HTTP/1.1", "-".
Defined.

